(** * Disaster-Response-Pipeline: the training script [models/train_classifier.py]

    A shallow embedding of the scoring function [multioutput_fscore], of the
    feature extractor [StartingVerbExtractor.starting_verb] (with [tokenize]),
    of [evaluate_model] and of [main], followed by the properties proved about
    them.

    Conventions of the embedding.
    - Python integers that count things are [nat]; label values are [Z].
    - A Python float is an exact number: a rational [Q] wherever the code
      only adds, multiplies and divides counts, a real [R] after [gmean]
      (which takes logarithms).  Rounding is not modelled.  The float value
      [nan] is a value of its own ([NaN], or [None] for a rational).
    - A Python exception is the [Raise] branch of [outcome].
    - [print] and the calls that reach outside the process (database, model
      fitting, pickle file) append an [event] to a chronological trace. *)

From Stdlib Require Import String Ascii.
From Stdlib Require Import List ZArith QArith Qreals Reals Lra Lia Bool.
From Stdlib Require Import Lqa.
From Stdlib Require Import Permutation Sorted.
Import ListNotations.

Set Implicit Arguments.

(** ** Exceptions *)

Inductive exn : Type :=
| IndexError
| ValueError
| OtherError (class_name : string).

Inductive outcome (A : Type) : Type :=
| Return (a : A)
| Raise (e : exn).

Arguments Return {A} a.
Arguments Raise {A} e.

Definition bind {A B : Type} (m : outcome A) (k : A -> outcome B) : outcome B :=
  match m with
  | Return a => k a
  | Raise e => Raise e
  end.

Declare Scope py_scope.
Delimit Scope py_scope with py.
Notation "x <- m ;; k" := (bind m (fun x => k))
  (at level 61, m at next level, right associativity) : py_scope.

(** [for x in xs: acc.append(f(x))]: the first exception ends the loop. *)
Fixpoint for_append {A B : Type} (f : A -> outcome B) (xs : list A) : outcome (list B) :=
  match xs with
  | [] => Return []
  | x :: xs' =>
      (y <- f x ;;
       ys <- for_append f xs' ;;
       Return (y :: ys))%py
  end.

(** ** Label matrices *)

(** A two-dimensional numpy array of labels: [shape = (n_rows, n_cols)]. *)
Record ndarray : Type := mk_ndarray {
  n_rows : nat;
  n_cols : nat;
  cells : list (list Z)
}.

Definition well_shaped (a : ndarray) : bool :=
  (length (cells a) =? n_rows a)%nat
  && forallb (fun r => (length r =? n_cols a)%nat) (cells a).

(** [a[:, k]]; numpy raises IndexError when [k] is out of bounds. *)
Definition column_cells (a : ndarray) (k : nat) : list Z :=
  map (fun r => nth k r 0%Z) (cells a).

Definition column (a : ndarray) (k : nat) : outcome (list Z) :=
  if (k <? n_cols a)%nat then Return (column_cells a k) else Raise IndexError.

(** A pandas DataFrame: column names, row index and the underlying array. *)
Record DataFrame : Type := mk_DataFrame {
  columns : list string;
  index : list Z;
  values : ndarray
}.

(** What a caller may pass as [y_true] or [y_pred]. *)
Inductive labels : Type :=
| Frame (df : DataFrame)
| Array (a : ndarray).

(** Lines 124-127: [if isinstance(y, pd.DataFrame) == True: y = y.values]. *)
Definition as_values (y : labels) : ndarray :=
  match y with
  | Frame df => values df
  | Array a => a
  end.

(** ** Library functions used by the scorer *)

(** Modelled from the spec: [sklearn.metrics] is library code outside the
    repository.  The module follows spec 4.7, step 1, for the call
    [fbeta_score(y_true, y_pred, beta, average='weighted')]: confusion
    counts per class, precision and recall with a zero-division-safe
    quotient, the F-beta formula, and the support-weighted average. *)
Module Sklearn.

(** Sorted union of the labels that occur in [y_true] or [y_pred]. *)
Fixpoint insert_label (c : Z) (l : list Z) : list Z :=
  match l with
  | [] => [c]
  | d :: l' =>
      if (c <? d)%Z then c :: l
      else if (c =? d)%Z then l
      else d :: insert_label c l'
  end.

Definition unique_labels (y_true y_pred : list Z) : list Z :=
  fold_right insert_label [] (y_true ++ y_pred).

Definition tp_sum (c : Z) (y_true y_pred : list Z) : nat :=
  length (filter (fun tp => (fst tp =? c)%Z && (snd tp =? c)%Z) (combine y_true y_pred)).

Definition pred_sum (c : Z) (y_pred : list Z) : nat :=
  length (filter (fun p => (p =? c)%Z) y_pred).

Definition true_sum (c : Z) (y_true : list Z) : nat :=
  length (filter (fun t => (t =? c)%Z) y_true).

Definition Qnat (n : nat) : Q := inject_Z (Z.of_nat n).

(** Division of counts; a zero denominator gives 0 (and a warning) instead of
    an exception. *)
Definition prf_divide (numerator denominator : nat) : Q :=
  if (denominator =? 0)%nat then 0 else Qnat numerator / Qnat denominator.

Definition precision (c : Z) (y_true y_pred : list Z) : Q :=
  prf_divide (tp_sum c y_true y_pred) (pred_sum c y_pred).

Definition recall (c : Z) (y_true y_pred : list Z) : Q :=
  prf_divide (tp_sum c y_true y_pred) (true_sum c y_true).

(** F-beta of one class of one column. *)
Definition class_fbeta (beta : Q) (c : Z) (y_true y_pred : list Z) : Q :=
  let beta2 := beta * beta in
  let p := precision c y_true y_pred in
  let r := recall c y_true y_pred in
  let denom := beta2 * p + r in
  let denom := if Qeq_bool denom 0 then 1 else denom in
  (1 + beta2) * p * r / denom.

Definition Qsum (l : list Q) : Q := fold_right Qplus 0 l.

Definition Qltb (x y : Q) : bool := negb (Qle_bool y x).

(** [np.average(a, weights=w)]. *)
Definition average (a w : list Q) : Q :=
  Qsum (map (fun aw => fst aw * snd aw) (combine a w)) / Qsum w.

(** Modelled from the spec: [sklearn.metrics.fbeta_score(y_true, y_pred, beta,
    average='weighted')] is library code outside the repository.  Spec 4.7,
    step 1: the per-class F-beta scores of the column are averaged, weighted
    by each class's support (the number of true members); a class with zero
    predicted or zero true members contributes zero instead of raising.  The
    library rejects columns of different lengths and a negative beta with
    ValueError, and returns 0 when the total support is zero. *)
Definition fbeta_score (y_true y_pred : list Z) (beta : Q) : outcome Q :=
  if negb (length y_true =? length y_pred)%nat then Raise ValueError
  else if Qltb beta 0 then Raise ValueError
  else
    let classes := unique_labels y_true y_pred in
    let f_score := map (fun c => class_fbeta beta c y_true y_pred) classes in
    let weights := map (fun c => Qnat (true_sum c y_true)) classes in
    if Qeq_bool (Qsum weights) 0 then Return 0
    else Return (average f_score weights).

End Sklearn.

(** A numpy float after [gmean]: a real number or [nan]. *)
Inductive npfloat : Type :=
| Num (r : R)
| NaN.

Module Scipy.

Definition Rsum (l : list R) : R := fold_right Rplus 0%R l.

(** Modelled from the spec: [scipy.stats.mstats.gmean] is library code outside
    the repository.  Spec 4.7, step 4 and glossary: the geometric mean is the
    product of the values raised to the power 1/count, computed by the
    library as [exp(mean(log(a)))].  On an empty array the mean of nothing is
    [nan]; the logarithm of a negative number is [nan]; the logarithm of 0 is
    minus infinity, whose exponential is 0. *)
Definition gmean (a : list Q) : npfloat :=
  match a with
  | [] => NaN
  | _ :: _ =>
      if existsb (fun x => Sklearn.Qltb x 0) a then NaN
      else if existsb (fun x => Qeq_bool x 0) a then Num 0%R
      else Num (exp (Rsum (map (fun x => ln (Q2R x)) a) / INR (length a)))
  end.

End Scipy.

(** ** The scorer: [multioutput_fscore], lines 100-134 *)

(** Line 129: the score of one label column. *)
Definition column_score (y_true y_pred : ndarray) (beta : Q) (k : nat) : outcome Q :=
  (yt <- column y_true k ;;
   yp <- column y_pred k ;;
   Sklearn.fbeta_score yt yp beta)%py.

(** Lines 131-133: [f1score_numpy[f1score_numpy < 1]] and [gmean]. *)
Definition aggregate (score_list : list Q) : npfloat :=
  let f1score_numpy := filter (fun s => Sklearn.Qltb s 1) score_list in
  Scipy.gmean f1score_numpy.

Definition multioutput_fscore (y_true y_pred : labels) (beta : Q) : outcome npfloat :=
  let y_pred := as_values y_pred in
  let y_true := as_values y_true in
  (score_list <- for_append (column_score y_true y_pred beta) (seq 0 (n_cols y_true)) ;;
   Return (aggregate score_list))%py.

(** ** Python strings *)

(** The [str] methods the script uses, on ASCII strings. *)
Module Str.

Definition nl : string := String (ascii_of_nat 10) EmptyString.

Definition is_upper (c : ascii) : bool :=
  let n := nat_of_ascii c in (65 <=? n)%nat && (n <=? 90)%nat.

Definition lower_char (c : ascii) : ascii :=
  if is_upper c then ascii_of_nat (nat_of_ascii c + 32) else c.

(** [s.lower()] on the ASCII letters; other bytes are kept. *)
Fixpoint lower (s : string) : string :=
  match s with
  | EmptyString => EmptyString
  | String c s' => String (lower_char c) (lower s')
  end.

(** The ASCII characters for which [str.isspace] holds. *)
Definition is_space (c : ascii) : bool :=
  let n := nat_of_ascii c in
  ((9 <=? n)%nat && (n <=? 13)%nat) || ((28 <=? n)%nat && (n <=? 32)%nat).

Fixpoint lstrip (s : string) : string :=
  match s with
  | EmptyString => EmptyString
  | String c s' => if is_space c then lstrip s' else s
  end.

Fixpoint rstrip (s : string) : string :=
  match s with
  | EmptyString => EmptyString
  | String c s' =>
      match rstrip s' with
      | EmptyString => if is_space c then EmptyString else String c EmptyString
      | t => String c t
      end
  end.

(** [s.strip()]. *)
Definition strip (s : string) : string := rstrip (lstrip s).

(** Every character of [s] satisfies [p]. *)
Fixpoint all_chars (p : ascii -> bool) (s : string) : bool :=
  match s with
  | EmptyString => true
  | String c s' => p c && all_chars p s'
  end.

(** [s.split(' ')] without the empty pieces. *)
Fixpoint words_from (current : string) (s : string) : list string :=
  match s with
  | EmptyString =>
      match current with
      | EmptyString => []
      | _ => [current]
      end
  | String c s' =>
      if Ascii.eqb c " "%char
      then match current with
           | EmptyString => words_from EmptyString s'
           | _ => current :: words_from EmptyString s'
           end
      else words_from (current ++ String c EmptyString) s'
  end.

(** [x in l] for a list of strings. *)
Definition mem (x : string) (l : list string) : bool :=
  existsb (String.eqb x) l.

End Str.

(** ** The feature extractor: [tokenize] and [StartingVerbExtractor] *)

(** The NLTK functions the script calls.  [tag_of tokens i] is the
    part-of-speech tag the tagger gives to the [i]-th token of [tokens]. *)
Class Nltk : Type := {
  sent_tokenize : string -> list string;
  word_tokenize : string -> list string;
  lemmatize : string -> string;
  tag_of : list string -> nat -> string
}.

Section Extractor.

Context {nltk : Nltk}.

(** Modelled from the spec: [nltk.pos_tag] is library code outside the
    repository.  Spec 4.3: it tags each token's part of speech, giving one
    (token, tag) pair per token, in order. *)
Definition pos_tag (tokens : list string) : list (string * string) :=
  map (fun iw => (snd iw, tag_of tokens (fst iw)))
      (combine (seq 0 (length tokens)) tokens).

(** Lines 54-73. *)
Definition tokenize (text : string) : list string :=
  let tokens := word_tokenize text in
  map (fun token => Str.strip (Str.lower (lemmatize token))) tokens.

(** Lines 85-90: the loop over the sentences. *)
Fixpoint starting_verb_loop (sentence_list : list string) : outcome bool :=
  match sentence_list with
  | [] => Return false
  | sentence :: rest =>
      let pos_tags := pos_tag (tokenize sentence) in
      match pos_tags with
      | [] => Raise IndexError
      | (first_word, first_tag) :: _ =>
          if Str.mem first_tag ["VB"; "VBP"]%string || String.eqb first_word "RT"
          then Return true
          else starting_verb_loop rest
      end
  end.

(** Lines 83-90. *)
Definition starting_verb (text : string) : outcome bool :=
  let sentence_list := sent_tokenize text in
  starting_verb_loop sentence_list.

(** Lines 95-97: one value per sample. *)
Definition transform (X : list string) : outcome (list bool) :=
  for_append starting_verb X.

(** The same loop deciding on the tag alone, without the comparison of the
    first word with the retweet marker. *)
Fixpoint tag_only_loop (sentence_list : list string) : outcome bool :=
  match sentence_list with
  | [] => Return false
  | sentence :: rest =>
      match pos_tag (tokenize sentence) with
      | [] => Raise IndexError
      | (_, first_tag) :: _ =>
          if Str.mem first_tag ["VB"; "VBP"]%string
          then Return true
          else tag_only_loop rest
      end
  end.

End Extractor.

(** ** Output and external calls *)

(** One argument of a [print] call.  [Percent2f template x] stands for
    [template.format(x)] where [template] has the single hole [{0:.2f}]: the
    number is kept exact instead of being rendered to two decimals. *)
Inductive printed : Type :=
| Text (s : string)
| Percent2f (template : string) (x : npfloat).

Inductive event : Type :=
| Stdout (args : list printed)
| ReadDatabase (database_filepath : string)
| TrainTestSplit
| BuildModel
| Fit
| Predict
| PickleDump (model_filepath : string).

(** A computation that may raise and that extends the trace of events. *)
Definition io (A : Type) : Type := list event -> outcome A * list event.

Definition ret {A : Type} (a : A) : io A := fun tr => (Return a, tr).

Definition io_bind {A B : Type} (m : io A) (k : A -> io B) : io B :=
  fun tr =>
    match m tr with
    | (Return a, tr') => k a tr'
    | (Raise e, tr') => (Raise e, tr')
    end.

Definition emit (e : event) : io unit := fun tr => (Return tt, tr ++ [e]).

Definition lift {A : Type} (m : outcome A) : io A := fun tr => (m, tr).

Definition print (args : list printed) : io unit := emit (Stdout args).

Declare Scope io_scope.
Delimit Scope io_scope with io.
Notation "x <- m ;; k" := (io_bind m (fun x => k))
  (at level 61, m at next level, right associativity) : io_scope.
Notation "m ;; k" := (io_bind m (fun _ => k))
  (at level 61, right associativity) : io_scope.

(** [for x in xs: body(x)]. *)
Fixpoint for_in {A : Type} (xs : list A) (body : A -> io unit) : io unit :=
  match xs with
  | [] => ret tt
  | x :: xs' => (body x ;; for_in xs' body)%io
  end.

(** The collaborators of the script: the database, the random split, the
    scikit-learn estimator built by [build_model], the report formatter and
    the file system ([pickle_dump model path] is the outcome of
    [pickle.dump(model, open(path, 'wb'))]). *)
Class Collaborators : Type := {
  estimator : Type;
  read_sql_table : string -> outcome (list string * DataFrame);
  split : list string -> DataFrame ->
          list string * list string * DataFrame * DataFrame;
  grid_search : estimator;
  estimator_fit : estimator -> list string -> DataFrame -> outcome estimator;
  estimator_predict : estimator -> list string -> outcome ndarray;
  classification_report : list Z -> list Z -> string;
  pickle_dump : estimator -> string -> outcome unit
}.

(** ** The evaluator: [evaluate_model], lines 167-189 *)

(** [np.float * 100]. *)
Definition times100 (x : npfloat) : npfloat :=
  match x with
  | Num r => Num (r * 100)%R
  | NaN => NaN
  end.

Definition npfloat_of (x : option Q) : npfloat :=
  match x with
  | Some q => Num (Q2R q)
  | None => NaN
  end.

(** The number of [True] in a boolean column. *)
Definition count_true (l : list bool) : nat := length (filter (fun b => b) l).

(** Mean of a boolean column; [nan] for a column without rows. *)
Definition mean_bool (l : list bool) : option Q :=
  match l with
  | [] => None
  | _ :: _ => Some (Sklearn.Qnat (count_true l) / Sklearn.Qnat (length l))
  end.

(** [Series.mean()]: the mean of the values that are not [nan]. *)
Definition series_mean (l : list (option Q)) : option Q :=
  let present := flat_map (fun x => match x with Some q => [q] | None => [] end) l in
  match present with
  | [] => None
  | _ :: _ => Some (Sklearn.Qsum present / Sklearn.Qnat (length present))
  end.

(** Column [k] of [y_pred == y_test]. *)
Definition equal_column (y_pred y_test : ndarray) (k : nat) : list bool :=
  map (fun pt => (fst pt =? snd pt)%Z)
      (combine (column_cells y_pred k) (column_cells y_test k)).

(** Line 187: [(y_pred == y_test).mean().mean()]; the comparison of an
    array with a frame of another shape raises ValueError. *)
Definition overall_accuracy (y_pred : ndarray) (y_test : DataFrame) : outcome (option Q) :=
  let t := values y_test in
  if (n_rows y_pred =? n_rows t)%nat && (n_cols y_pred =? n_cols t)%nat
  then Return (series_mean
                 (map (fun k => mean_bool (equal_column y_pred t k))
                      (seq 0 (n_cols t))))
  else Raise ValueError.

Definition separator : string :=
  ("------------------------------------------------------" ++ Str.nl)%string.

Section Pipeline.

Context {world : Collaborators}.

Definition evaluate_model (model : estimator) (X_test : list string)
    (y_test : DataFrame) (category_names : list string) : io unit :=
  (emit Predict ;;
   y_pred <- lift (estimator_predict model X_test) ;;
   for_in (seq 0 (length category_names)) (fun i =>
     print [Text separator] ;;
     yt <- lift (column (values y_test) i) ;;
     yp <- lift (column y_pred i) ;;
     print [Text "Category:"; Text (nth i category_names ""%string); Text Str.nl;
            Text (classification_report yt yp)]) ;;
   multioutput_f1 <- lift (multioutput_fscore (Frame y_test) (Array y_pred) 1) ;;
   accuracy <- lift (overall_accuracy y_pred y_test) ;;
   print [Percent2f ("Average overall accuracy:     {0:.2f}%" ++ Str.nl)
                    (times100 (npfloat_of accuracy))] ;;
   print [Percent2f ("F1 score (custom definition): {0:.2f}%" ++ Str.nl)
                    (times100 multioutput_f1)])%io.

(** ** The other steps of the script *)

(** Lines 33-51. *)
Definition load_data (database_filepath : string)
  : io (list string * DataFrame * list string) :=
  (emit (ReadDatabase database_filepath) ;;
   Xy <- lift (read_sql_table database_filepath) ;;
   ret (fst Xy, snd Xy, columns (snd Xy)))%io.

(** Lines 137-164. *)
Definition build_model : io estimator :=
  (emit BuildModel ;; ret grid_search)%io.

(** Lines 192-202: the call is recorded, then it returns or raises as the
    file system decides. *)
Definition save_model (model : estimator) (model_filepath : string) : io unit :=
  (emit (PickleDump model_filepath) ;;
   lift (pickle_dump model model_filepath))%io.

Definition usage : string :=
  ("Please provide the filepath of the disaster messages database "
   ++ "as the first argument and the filepath of the pickle file to "
   ++ "save the model to as the second argument. " ++ Str.nl ++ Str.nl
   ++ "Example: python "
   ++ "train_classifier.py ../data/DisasterResponse.db classifier.pkl")%string.

(** [a, b = xs]: ValueError unless [xs] has exactly two elements. *)
Definition unpack2 (xs : list string) : outcome (string * string) :=
  match xs with
  | [a; b] => Return (a, b)
  | _ => Raise ValueError
  end.

(** ** The entry point: [main], lines 205-240 *)

Definition main (argv : list string) : io unit :=
  if (length argv =? 3)%nat then
    (paths <- lift (unpack2 (tl argv)) ;;
     let database_filepath := fst paths in
     let model_filepath := snd paths in
     print [Text ("Loading data..." ++ Str.nl ++ "    DATABASE: "
                  ++ database_filepath)] ;;
     data <- load_data database_filepath ;;
     let X := fst (fst data) in
     let y := snd (fst data) in
     let category_names := snd data in
     emit TrainTestSplit ;;
     let parts := split X y in
     let X_train := fst (fst (fst parts)) in
     let X_test := snd (fst (fst parts)) in
     let y_train := snd (fst parts) in
     let y_test := snd parts in
     print [Text "Building model..."] ;;
     model <- build_model ;;
     print [Text "Training model..."] ;;
     emit Fit ;;
     model <- lift (estimator_fit model X_train y_train) ;;
     print [Text "Evaluating model..."] ;;
     evaluate_model model X_test y_test category_names ;;
     print [Text ("Saving model..." ++ Str.nl ++ "    MODEL: " ++ model_filepath)] ;;
     save_model model model_filepath ;;
     print [Text "Trained model saved!"])%io
  else
    print [Text usage].

End Pipeline.

(** ** Notions used in the statements *)

(** Two arrays of one shape. *)
Definition same_shape (a b : ndarray) : Prop :=
  n_rows a = n_rows b /\ n_cols a = n_cols b.

(** The filter as the specification words it: drop the scores equal to 1. *)
Definition drop_perfect (score_list : list Q) : list Q :=
  filter (fun s => negb (Qeq_bool s 1)) score_list.

Definition Rprod (l : list R) : R := fold_right Rmult 1%R l.

(** The weighted F-beta score of one label column in the words of the
    specification (4.7, step 1), on counts taken with [count_occ]. *)

(** The number of members of class [c] in a column. *)
Definition members (c : Z) (y : list Z) : nat := count_occ Z.eq_dec y c.

Definition pair_eq_dec (p q : Z * Z) : {p = q} + {p <> q}.
Proof. decide equality; apply Z.eq_dec. Defined.

(** The number of samples that are of class [c] and predicted as [c]. *)
Definition hits (c : Z) (y_true y_pred : list Z) : nat :=
  count_occ pair_eq_dec (combine y_true y_pred) (c, c).

(** F-beta of one class from its precision and recall; a division by zero
    (no predicted member, no true member, or precision and recall both
    zero) gives the score zero. *)
Definition class_score (beta : Q) (c : Z) (y_true y_pred : list Z) : Q :=
  let predicted := members c y_pred in
  let actual := members c y_true in
  if (predicted =? 0)%nat || (actual =? 0)%nat then 0
  else
    let P := Sklearn.Qnat (hits c y_true y_pred) / Sklearn.Qnat predicted in
    let R := Sklearn.Qnat (hits c y_true y_pred) / Sklearn.Qnat actual in
    if Qeq_bool (beta * beta * P + R) 0 then 0
    else (1 + beta * beta) * P * R / (beta * beta * P + R).

(** The classes observed in the true or the predicted column. *)
Definition observed_classes (y_true y_pred : list Z) : list Z :=
  nodup Z.eq_dec (y_true ++ y_pred).

(** The average of the class scores of [classes], each weighted by the
    support of its class (its number of true members) over the number of
    samples; for a column without samples the quotient by zero is 0. *)
Definition weighted_fbeta_over (classes : list Z) (beta : Q)
    (y_true y_pred : list Z) : Q :=
  Sklearn.Qsum (map (fun c => class_score beta c y_true y_pred
                              * Sklearn.Qnat (members c y_true)) classes)
  / Sklearn.Qnat (length y_true).

Definition weighted_fbeta (beta : Q) (y_true y_pred : list Z) : Q :=
  weighted_fbeta_over (observed_classes y_true y_pred) beta y_true y_pred.

(** The exact-match indicator of every (sample, label) cell, row by row. *)
Definition cell_matches (y_pred y_test : ndarray) : list bool :=
  flat_map (fun rows =>
              map (fun k => (nth k (fst rows) 0 =? nth k (snd rows) 0)%Z)
                  (seq 0 (n_cols y_test)))
           (combine (cells y_pred) (cells y_test)).

(** The mean of the indicator over all the cells. *)
Definition mean_over_cells (y_pred y_test : ndarray) : option Q :=
  mean_bool (cell_matches y_pred y_test).

(** Equality of two floats that are rationals or [nan]. *)
Definition same_float (x y : option Q) : Prop :=
  match x, y with
  | Some p, Some q => p == q
  | None, None => True
  | _, _ => False
  end.

(** The events of a training run: everything except output. *)
Definition is_training_event (e : event) : bool :=
  match e with
  | Stdout _ => false
  | _ => true
  end.

(** What [evaluate_model] prints for category [i]. *)
Definition category_output {world : Collaborators} (y_pred : ndarray)
    (y_test : DataFrame) (category_names : list string) (i : nat) : list event :=
  [Stdout [Text separator];
   Stdout [Text "Category:"; Text (nth i category_names ""%string); Text Str.nl;
           Text (classification_report (column_cells (values y_test) i)
                                       (column_cells y_pred i))]].

(** ** Stand-ins for the collaborators, used in the examples *)

(** One sentence per non-empty text, words separated by spaces, no
    lemmatisation, and a tagger that knows three words. *)
Definition toy_tag (token : string) : string :=
  if String.eqb token "run" then "VB"
  else if String.eqb token "the" then "DT"
  else "NN".

Definition toy_nltk : Nltk := {|
  sent_tokenize := fun text =>
    match text with
    | EmptyString => []
    | _ => [text]
    end;
  word_tokenize := Str.words_from EmptyString;
  lemmatize := fun token => token;
  tag_of := fun tokens i => toy_tag (nth i tokens EmptyString)
|}.

(** A two-sample, two-category test partition and an estimator that
    predicts the first column right and the second one half right. *)
Definition toy_y_test : DataFrame := {|
  columns := ["related"; "request"]%string;
  index := [0; 1]%Z;
  values := {| n_rows := 2; n_cols := 2; cells := [[1; 0]; [0; 1]]%Z |}
|}.

Definition toy_y_pred : ndarray :=
  {| n_rows := 2; n_cols := 2; cells := [[1; 0]; [0; 0]]%Z |}.

Definition toy_world : Collaborators := {|
  estimator := unit;
  read_sql_table := fun _ => Return (["help"; "water"]%string, toy_y_test);
  split := fun X y => (X, X, y, y);
  grid_search := tt;
  estimator_fit := fun m _ _ => Return m;
  estimator_predict := fun _ _ => Return toy_y_pred;
  classification_report := fun _ _ => "report"%string;
  pickle_dump := fun _ _ => Return tt
|}.

(** Twenty-one samples and three categories whose per-label scores are
    0.8, 1.0 and 0.6: every true label is 1; the first column is predicted
    right on 14 samples, the second on all, the third on 9. *)
Definition worked_row (i : nat) : list Z :=
  [if (i <? 14)%nat then 1 else 0; 1; if (i <? 9)%nat then 1 else 0]%Z.

Definition worked_y_true : ndarray :=
  {| n_rows := 21; n_cols := 3; cells := map (fun _ => [1; 1; 1]%Z) (seq 0 21) |}.

Definition worked_y_pred : ndarray :=
  {| n_rows := 21; n_cols := 3; cells := map worked_row (seq 0 21) |}.

(** ** Notions used in the further properties *)

Section ExtractorNotions.

Context {nltk : Nltk}.

(** The tag of the first token of a sentence, if the sentence has a token. *)
Definition first_tag (sentence : string) : option string :=
  match pos_tag (tokenize sentence) with
  | [] => None
  | (_, tag) :: _ => Some tag
  end.

(** [tag in ['VB', 'VBP']]. *)
Definition verb_tag (tag : string) : bool :=
  Str.mem tag ["VB"; "VBP"]%string.

Definition leads_with_verb (sentence : string) : Prop :=
  exists tag, first_tag sentence = Some tag /\ verb_tag tag = true.

Definition leads_with_other (sentence : string) : Prop :=
  exists tag, first_tag sentence = Some tag /\ verb_tag tag = false.

End ExtractorNotions.

(** A string that does not begin with white space. *)
Definition no_leading_space (s : string) : bool :=
  match s with
  | EmptyString => true
  | String c _ => negb (Str.is_space c)
  end.

(** Every event a computation appends to the trace satisfies [P], whether
    it returns or raises. *)
Definition emits {A : Type} (P : event -> Prop) (m : io A) : Prop :=
  forall tr, exists new, snd (m tr) = tr ++ new /\ Forall P new.

(** The events of [evaluate_model]: the prediction and output. *)
Definition evaluation_event (e : event) : Prop :=
  e = Predict \/ exists args, e = Stdout args.

(** The arithmetic mean of an array of scores. *)
Definition Rmean (l : list Q) : R :=
  (Scipy.Rsum (map Q2R l) / INR (length l))%R.

(** The first [k] columns of an array: [a[:, :k]]. *)
Definition first_columns (k : nat) (a : ndarray) : ndarray :=
  {| n_rows := n_rows a; n_cols := Nat.min k (n_cols a);
     cells := map (firstn k) (cells a) |}.

(** * Properties *)

(** ** Counts and rationals *)

Module SklearnFacts.
Import Sklearn.

Lemma Qnat_nonneg (n : nat) : 0 <= Qnat n.
Proof.
  unfold Qnat, Qle. simpl. lia.
Qed.

Lemma Qnat_le (n m : nat) : (n <= m)%nat -> Qnat n <= Qnat m.
Proof.
  intros H. unfold Qnat. rewrite <- Zle_Qle. lia.
Qed.

Lemma Qnat_pos (n : nat) : (0 < n)%nat -> 0 < Qnat n.
Proof.
  intros H. unfold Qnat, Qlt. simpl. lia.
Qed.

Lemma tp_le_pred (c : Z) (y_true y_pred : list Z) :
  (tp_sum c y_true y_pred <= pred_sum c y_pred)%nat.
Proof.
  unfold tp_sum, pred_sum. revert y_pred.
  induction y_true as [|t y_true IH]; intros [|p y_pred]; simpl; try lia.
  specialize (IH y_pred).
  destruct (t =? c)%Z, (p =? c)%Z; simpl; lia.
Qed.

Lemma tp_le_true (c : Z) (y_true y_pred : list Z) :
  (tp_sum c y_true y_pred <= true_sum c y_true)%nat.
Proof.
  unfold tp_sum, true_sum. revert y_pred.
  induction y_true as [|t y_true IH]; intros [|p y_pred]; simpl; try lia.
  specialize (IH y_pred).
  destruct (t =? c)%Z, (p =? c)%Z; simpl; lia.
Qed.

Lemma prf_divide_bounds (n d : nat) :
  (n <= d)%nat -> 0 <= prf_divide n d <= 1.
Proof.
  intros H. unfold prf_divide.
  destruct (Nat.eqb_spec d 0) as [->|Hd].
  - split; [apply Qle_refl | discriminate].
  - assert (Hpos : 0 < Qnat d) by (apply Qnat_pos; lia).
    split.
    + apply Qle_shift_div_l; [exact Hpos|].
      rewrite Qmult_0_l. apply Qnat_nonneg.
    + apply Qle_shift_div_r; [exact Hpos|].
      rewrite Qmult_1_l. apply Qnat_le, H.
Qed.

Lemma prf_divide_zero_den (n : nat) : prf_divide n 0 = 0.
Proof. reflexivity. Qed.

Lemma prf_divide_zero_num (d : nat) : prf_divide 0 d == 0.
Proof.
  unfold prf_divide. destruct (d =? 0)%nat; [reflexivity|].
  unfold Qnat. simpl. unfold Qdiv. apply Qmult_0_l.
Qed.

Lemma precision_bounds c y_true y_pred : 0 <= precision c y_true y_pred <= 1.
Proof. apply prf_divide_bounds, tp_le_pred. Qed.

Lemma recall_bounds c y_true y_pred : 0 <= recall c y_true y_pred <= 1.
Proof. apply prf_divide_bounds, tp_le_true. Qed.

(** The F-beta formula on a precision and a recall in [0, 1]. *)
Lemma fbeta_formula_bounds (b2 p r : Q) :
  0 <= b2 -> 0 <= p <= 1 -> 0 <= r <= 1 ->
  0 <= (1 + b2) * p * r / (if Qeq_bool (b2 * p + r) 0 then 1 else b2 * p + r) <= 1.
Proof.
  intros Hb [Hp0 Hp1] [Hr0 Hr1].
  assert (Hbp : 0 <= b2 * p) by (apply Qmult_le_0_compat; assumption).
  assert (Hpr : 0 <= p * r) by (apply Qmult_le_0_compat; assumption).
  assert (Hnum : 0 <= (1 + b2) * p * r).
  { rewrite <- Qmult_assoc. apply Qmult_le_0_compat; [lra | exact Hpr]. }
  assert (Hpr1 : p * r <= r).
  { setoid_replace r with (1 * r) at 2 by ring.
    apply Qmult_le_compat_r; assumption. }
  assert (Hbpr : b2 * p * r <= b2 * p).
  { setoid_replace (b2 * p) with (b2 * p * 1) at 2 by ring.
    rewrite (Qmult_comm (b2 * p) r), (Qmult_comm (b2 * p) 1).
    apply Qmult_le_compat_r; assumption. }
  assert (Hle : (1 + b2) * p * r <= b2 * p + r).
  { setoid_replace ((1 + b2) * p * r) with (p * r + b2 * p * r) by ring. lra. }
  destruct (Qeq_bool (b2 * p + r) 0) eqn:E.
  - apply Qeq_bool_eq in E.
    split.
    + apply Qle_shift_div_l; [reflexivity | lra].
    + apply Qle_shift_div_r; [reflexivity | lra].
  - apply Qeq_bool_neq in E.
    assert (Hpos : 0 < b2 * p + r).
    { destruct (Qlt_le_dec 0 (b2 * p + r)) as [H|H]; [exact H|].
      exfalso. apply E. lra. }
    split.
    + apply Qle_shift_div_l; [exact Hpos | lra].
    + apply Qle_shift_div_r; [exact Hpos | lra].
Qed.

Lemma class_fbeta_bounds beta c y_true y_pred :
  0 <= class_fbeta beta c y_true y_pred <= 1.
Proof.
  unfold class_fbeta. cbv zeta.
  apply fbeta_formula_bounds.
  - destruct (Qlt_le_dec beta 0) as [H|H].
    + setoid_replace (beta * beta) with ((- beta) * (- beta)) by ring.
      apply Qmult_le_0_compat; lra.
    + apply Qmult_le_0_compat; assumption.
  - apply precision_bounds.
  - apply recall_bounds.
Qed.

End SklearnFacts.

(** ** The weighted average and [fbeta_score] *)

Module FbetaFacts.
Import Sklearn SklearnFacts.

Lemma weighted_sum_bounds (F W : Z -> Q) (classes : list Z) :
  (forall c, 0 <= F c <= 1) -> (forall c, 0 <= W c) ->
  0 <= Qsum (map (fun aw => fst aw * snd aw)
                 (combine (map F classes) (map W classes)))
    <= Qsum (map W classes).
Proof.
  intros HF HW.
  induction classes as [|c classes IH]; simpl.
  - split; apply Qle_refl.
  - destruct IH as [IH0 IH1]. destruct (HF c) as [F0 F1]. specialize (HW c).
    assert (H0 : 0 <= F c * W c) by (apply Qmult_le_0_compat; assumption).
    assert (H1 : F c * W c <= W c).
    { setoid_replace (W c) with (1 * W c) at 2 by ring.
      apply Qmult_le_compat_r; assumption. }
    split; Lqa.lra.
Qed.

Lemma Qsum_nonneg (W : Z -> Q) (classes : list Z) :
  (forall c, 0 <= W c) -> 0 <= Qsum (map W classes).
Proof.
  intros HW. induction classes as [|c classes IH]; simpl.
  - apply Qle_refl.
  - specialize (HW c). Lqa.lra.
Qed.

Lemma Qltb_false (x y : Q) : Qltb x y = false <-> y <= x.
Proof.
  unfold Qltb. rewrite negb_false_iff. apply Qle_bool_iff.
Qed.

Lemma Qltb_true (x y : Q) : Qltb x y = true <-> x < y.
Proof.
  unfold Qltb. rewrite negb_true_iff. split; intros H.
  - apply Qnot_le_lt. intros Hle. apply Qle_bool_iff in Hle. congruence.
  - destruct (Qle_bool y x) eqn:E; [|reflexivity].
    apply Qle_bool_iff in E. exfalso. apply (Qlt_not_le _ _ H E).
Qed.

(** On columns of one length and a beta that is not negative the library
    call returns a number between 0 and 1. *)
Lemma fbeta_score_returns (y_true y_pred : list Z) (beta : Q) :
  length y_true = length y_pred -> 0 <= beta ->
  exists s, fbeta_score y_true y_pred beta = Return s /\ 0 <= s <= 1.
Proof.
  intros Hlen Hbeta. unfold fbeta_score.
  rewrite (proj2 (Nat.eqb_eq _ _) Hlen). cbn [negb].
  rewrite (proj2 (Qltb_false beta 0) Hbeta). cbv zeta.
  set (classes := unique_labels y_true y_pred).
  set (W := fun c : Z => Qnat (true_sum c y_true)).
  set (F := fun c : Z => class_fbeta beta c y_true y_pred).
  assert (HW : forall c, 0 <= W c) by (intro; apply Qnat_nonneg).
  assert (HF : forall c, 0 <= F c <= 1) by (intro; apply class_fbeta_bounds).
  destruct (Qeq_bool (Qsum (map W classes)) 0) eqn:E.
  - exists 0. split; [reflexivity|]. split; [apply Qle_refl | discriminate].
  - apply Qeq_bool_neq in E.
    pose proof (Qsum_nonneg W classes HW) as Hs.
    assert (Hpos : 0 < Qsum (map W classes)).
    { destruct (Qlt_le_dec 0 (Qsum (map W classes))) as [H|H]; [exact H|].
      exfalso. apply E. Lqa.lra. }
    destruct (weighted_sum_bounds F W classes HF HW) as [B0 B1].
    eexists. split; [reflexivity|]. unfold average. split.
    + apply Qle_shift_div_l; [exact Hpos | Lqa.lra].
    + apply Qle_shift_div_r; [exact Hpos | Lqa.lra].
Qed.

End FbetaFacts.

(** ** Loops *)

Lemma for_append_returns {A B : Type} (f : A -> outcome B) (P : B -> Prop)
    (xs : list A) :
  (forall x, In x xs -> exists y, f x = Return y /\ P y) ->
  exists ys, for_append f xs = Return ys
             /\ Forall2 (fun x y => f x = Return y) xs ys
             /\ Forall P ys.
Proof.
  induction xs as [|x xs IH]; intros H.
  - exists []. repeat split; constructor.
  - destruct (H x (or_introl eq_refl)) as (y & Hy & Py).
    destruct IH as (ys & Hys & H2 & HP).
    { intros x' Hx'. apply H. right. exact Hx'. }
    exists (y :: ys). simpl. rewrite Hy. simpl. rewrite Hys. simpl.
    repeat split; constructor; assumption.
Qed.

Lemma Forall2_length_eq {A B : Type} (R : A -> B -> Prop) (xs : list A) (ys : list B) :
  Forall2 R xs ys -> length xs = length ys.
Proof.
  induction 1; simpl; congruence.
Qed.

(** ** Columns of a well-shaped array *)

Lemma well_shaped_rows (a : ndarray) :
  well_shaped a = true -> length (cells a) = n_rows a.
Proof.
  unfold well_shaped. intros H. apply andb_true_iff in H.
  destruct H as [H _]. apply Nat.eqb_eq in H. exact H.
Qed.

Lemma well_shaped_row_length (a : ndarray) (r : list Z) :
  well_shaped a = true -> In r (cells a) -> length r = n_cols a.
Proof.
  unfold well_shaped. intros H Hr. apply andb_true_iff in H.
  destruct H as [_ H]. rewrite forallb_forall in H.
  apply Nat.eqb_eq. apply H. exact Hr.
Qed.

Lemma column_cells_length (a : ndarray) (k : nat) :
  length (column_cells a k) = length (cells a).
Proof.
  unfold column_cells. apply length_map.
Qed.

Lemma column_in_range (a : ndarray) (k : nat) :
  (k < n_cols a)%nat -> column a k = Return (column_cells a k).
Proof.
  intros H. unfold column. rewrite (proj2 (Nat.ltb_lt _ _) H). reflexivity.
Qed.

Section ScorerFacts.

Variables y_true y_pred : ndarray.
Variable beta : Q.
Hypothesis true_shaped : well_shaped y_true = true.
Hypothesis pred_shaped : well_shaped y_pred = true.
Hypothesis shapes : same_shape y_true y_pred.
Hypothesis beta_nonneg : 0 <= beta.

Lemma column_score_returns (k : nat) :
  (k < n_cols y_true)%nat ->
  exists s, column_score y_true y_pred beta k = Return s /\ 0 <= s <= 1.
Proof.
  intros Hk. unfold column_score.
  destruct shapes as [Hrows Hcols].
  rewrite (column_in_range y_true Hk).
  assert (Hk' : (k < n_cols y_pred)%nat) by lia.
  rewrite (column_in_range y_pred Hk'). simpl.
  apply FbetaFacts.fbeta_score_returns; [|exact beta_nonneg].
  rewrite !column_cells_length.
  rewrite (well_shaped_rows y_true true_shaped).
  rewrite (well_shaped_rows y_pred pred_shaped). exact Hrows.
Qed.

Lemma score_list_returns :
  exists score_list,
    for_append (column_score y_true y_pred beta) (seq 0 (n_cols y_true))
      = Return score_list
    /\ Forall2 (fun k s => column_score y_true y_pred beta k = Return s)
               (seq 0 (n_cols y_true)) score_list
    /\ Forall (fun s => 0 <= s <= 1) score_list.
Proof.
  apply for_append_returns. intros k Hk. apply in_seq in Hk.
  apply column_score_returns. lia.
Qed.

End ScorerFacts.

(** ** Filtering: [s < 1] against [s != 1] *)

Lemma below_one_is_not_one (s : Q) :
  s <= 1 -> Sklearn.Qltb s 1 = negb (Qeq_bool s 1).
Proof.
  intros H. destruct (Qeq_bool s 1) eqn:E; simpl.
  - apply Qeq_bool_eq in E. apply FbetaFacts.Qltb_false. rewrite E. apply Qle_refl.
  - apply Qeq_bool_neq in E. apply FbetaFacts.Qltb_true.
    apply Qle_lteq in H. destruct H as [H|H]; [exact H | contradiction].
Qed.

Lemma filter_below_one (score_list : list Q) :
  Forall (fun s => 0 <= s <= 1) score_list ->
  filter (fun s => Sklearn.Qltb s 1) score_list = drop_perfect score_list.
Proof.
  unfold drop_perfect. induction 1 as [|s l [_ Hs] _ IH]; simpl.
  - reflexivity.
  - rewrite (below_one_is_not_one Hs), IH. reflexivity.
Qed.

Lemma drop_perfect_range (score_list : list Q) :
  Forall (fun s => 0 <= s <= 1) score_list ->
  Forall (fun s => 0 <= s /\ s < 1) (drop_perfect score_list).
Proof.
  unfold drop_perfect. induction 1 as [|s l [Hs0 Hs1] _ IH]; simpl.
  - constructor.
  - destruct (Qeq_bool s 1) eqn:E; simpl; [exact IH|].
    constructor; [|exact IH]. split; [exact Hs0|].
    apply Qeq_bool_neq in E. apply Qle_lteq in Hs1.
    destruct Hs1 as [H|H]; [exact H | contradiction].
Qed.

Lemma drop_perfect_all_one (score_list : list Q) :
  Forall (fun s => s == 1) score_list -> drop_perfect score_list = [].
Proof.
  unfold drop_perfect. induction 1 as [|s l Hs _ IH]; simpl.
  - reflexivity.
  - rewrite (Qeq_eq_bool _ _ Hs). simpl. exact IH.
Qed.

(** ** The geometric mean *)

Module GmeanFacts.
Import Scipy.

Lemma exp_pow_nat (x : R) (n : nat) : (exp x ^ n = exp (INR n * x))%R.
Proof.
  induction n as [|n IH].
  - simpl. rewrite Rmult_0_l, exp_0. reflexivity.
  - rewrite S_INR. simpl pow. rewrite IH, <- exp_plus. f_equal. Lra.lra.
Qed.

Lemma exp_sum_ln (l : list R) :
  Forall (fun x => 0 < x)%R l -> exp (Rsum (map ln l)) = Rprod l.
Proof.
  induction 1 as [|x l Hx _ IH]; simpl.
  - apply exp_0.
  - rewrite exp_plus, IH, (exp_ln x Hx). reflexivity.
Qed.

Lemma sum_ln_nonpos (l : list R) :
  Forall (fun x => 0 < x < 1)%R l -> (Rsum (map ln l) <= 0)%R.
Proof.
  induction 1 as [|x l [Hx0 Hx1] _ IH]; simpl.
  - apply Rle_refl.
  - assert (ln x < 0)%R by (rewrite <- ln_1; apply ln_increasing; assumption).
    Lra.lra.
Qed.

Lemma Rprod_zero (l : list R) : In 0%R l -> Rprod l = 0%R.
Proof.
  induction l as [|x l IH]; simpl; intros H; [contradiction|].
  destruct H as [->|H].
  - apply Rmult_0_l.
  - rewrite (IH H). apply Rmult_0_r.
Qed.

Lemma no_negative (a : list Q) :
  Forall (fun x => 0 <= x) a -> existsb (fun x => Sklearn.Qltb x 0) a = false.
Proof.
  induction 1 as [|x l Hx _ IH]; simpl; [reflexivity|].
  rewrite IH, orb_false_r. apply FbetaFacts.Qltb_false. exact Hx.
Qed.

Lemma no_zero_positive (a : list Q) :
  Forall (fun x => 0 <= x) a -> existsb (fun x => Qeq_bool x 0) a = false ->
  Forall (fun x => 0 < x)%R (map Q2R a).
Proof.
  induction 1 as [|x l Hx _ IH]; simpl; intros E; constructor.
  - apply orb_false_iff in E. destruct E as [E _].
    apply Qeq_bool_neq in E. rewrite <- RMicromega.Q2R_0.
    apply Qlt_Rlt. apply Qle_lteq in Hx.
    destruct Hx as [H|H]; [exact H|]. exfalso. apply E. symmetry. exact H.
  - apply IH. apply orb_false_iff in E. apply E.
Qed.

Lemma map_ln_Q2R (a : list Q) :
  map (fun x => ln (Q2R x)) a = map ln (map Q2R a).
Proof. rewrite map_map. reflexivity. Qed.

(** The value of [gmean] on a non-empty array of non-negative numbers is
    the non-negative root of their product. *)
Lemma gmean_is_root (a : list Q) :
  a <> [] -> Forall (fun x => 0 <= x) a ->
  exists r, gmean a = Num r /\ (0 <= r)%R
            /\ (r ^ length a = Rprod (map Q2R a))%R.
Proof.
  intros Hne Hpos. destruct a as [|x0 a0]; [contradiction|].
  set (a := x0 :: a0) in *. unfold gmean. fold a.
  rewrite (no_negative Hpos).
  destruct (existsb (fun x => Qeq_bool x 0) a) eqn:E.
  - exists 0%R. split; [reflexivity|]. split; [apply Rle_refl|].
    apply existsb_exists in E. destruct E as (x & Hin & Hx).
    apply Qeq_bool_eq in Hx.
    rewrite Rprod_zero.
    + apply pow_i. subst a. simpl. lia.
    + apply in_map_iff. exists x. split; [|exact Hin].
      rewrite (Qeq_eqR _ _ Hx). apply RMicromega.Q2R_0.
  - pose proof (no_zero_positive Hpos E) as Hall.
    eexists. split; [reflexivity|]. split; [left; apply exp_pos|].
    rewrite exp_pow_nat, map_ln_Q2R.
    replace (INR (length a) * (Rsum (map ln (map Q2R a)) / INR (length a)))%R
      with (Rsum (map ln (map Q2R a))).
    + apply exp_sum_ln. exact Hall.
    + field. apply not_0_INR. subst a. simpl. lia.
Qed.

(** On scores in [0, 1) the geometric mean stays in [0, 1]. *)
Lemma gmean_unit_interval (a : list Q) :
  a <> [] -> Forall (fun x => 0 <= x /\ x < 1) a ->
  exists r, gmean a = Num r /\ (0 <= r <= 1)%R.
Proof.
  intros Hne Hrange. destruct a as [|x0 a0]; [contradiction|].
  set (a := x0 :: a0) in *. unfold gmean. fold a.
  assert (Hpos : Forall (fun x => 0 <= x) a).
  { eapply Forall_impl; [|exact Hrange]. intros x [H _]. exact H. }
  rewrite (no_negative Hpos).
  destruct (existsb (fun x => Qeq_bool x 0) a) eqn:E.
  - exists 0%R. split; [reflexivity | Lra.lra].
  - pose proof (no_zero_positive Hpos E) as Hall.
    eexists. split; [reflexivity|]. split; [left; apply exp_pos|].
    rewrite <- exp_0. rewrite map_ln_Q2R.
    assert (Hs : (Rsum (map ln (map Q2R a)) <= 0)%R).
    { apply sum_ln_nonpos. rewrite Forall_forall in *.
      intros r Hr. split; [apply Hall, Hr|].
      apply in_map_iff in Hr. destruct Hr as (q & <- & Hq).
      rewrite <- RMicromega.Q2R_1. apply Qlt_Rlt. apply (Hrange q Hq). }
    assert (Hn : (0 < INR (length a))%R).
    { apply lt_0_INR. subst a. simpl. lia. }
    assert (Hd : (Rsum (map ln (map Q2R a)) / INR (length a) <= 0)%R).
    { unfold Rdiv. 
      replace 0%R with (0 * / INR (length a))%R by apply Rmult_0_l.
      apply Rmult_le_compat_r; [left; apply Rinv_0_lt_compat; exact Hn | exact Hs]. }
    destruct Hd as [Hd|Hd].
    + left. apply exp_increasing. exact Hd.
    + right. rewrite Hd. reflexivity.
Qed.

Lemma gmean_empty : gmean [] = NaN.
Proof. reflexivity. Qed.

(** [gmean] of two positive numbers is the square root of their product. *)
Lemma gmean_pair (x y : Q) :
  0 < x -> 0 < y -> gmean [x; y] = Num (sqrt (Q2R x * Q2R y)).
Proof.
  intros Hx Hy.
  assert (Rx : (0 < Q2R x)%R) by (rewrite <- RMicromega.Q2R_0; apply Qlt_Rlt, Hx).
  assert (Ry : (0 < Q2R y)%R) by (rewrite <- RMicromega.Q2R_0; apply Qlt_Rlt, Hy).
  unfold gmean. cbn [existsb].
  rewrite !(proj2 (FbetaFacts.Qltb_false _ 0)) by (apply Qlt_le_weak; assumption).
  assert (Ex : Qeq_bool x 0 = false).
  { destruct (Qeq_bool x 0) eqn:E; [|reflexivity].
    apply Qeq_bool_eq in E. rewrite E in Hx. discriminate. }
  assert (Ey : Qeq_bool y 0 = false).
  { destruct (Qeq_bool y 0) eqn:E; [|reflexivity].
    apply Qeq_bool_eq in E. rewrite E in Hy. discriminate. }
  rewrite Ex, Ey. cbn [orb]. f_equal.
  symmetry. apply sqrt_lem_1.
  - left. apply Rmult_lt_0_compat; assumption.
  - left. apply exp_pos.
  - rewrite <- exp_plus. cbn [map Rsum fold_right length INR].
    replace ((ln (Q2R x) + (ln (Q2R y) + 0)) / (1 + 1)
             + (ln (Q2R x) + (ln (Q2R y) + 0)) / (1 + 1))%R
      with (ln (Q2R x) + ln (Q2R y))%R by field.
    rewrite exp_plus, !exp_ln by assumption. reflexivity.
Qed.

End GmeanFacts.

(** ** The scorer *)

Lemma multioutput_fscore_unfold (y_true y_pred : labels) (beta : Q)
    (score_list : list Q) :
  for_append (column_score (as_values y_true) (as_values y_pred) beta)
             (seq 0 (n_cols (as_values y_true))) = Return score_list ->
  multioutput_fscore y_true y_pred beta = Return (aggregate score_list).
Proof.
  intros H. unfold multioutput_fscore. cbv zeta. rewrite H. reflexivity.
Qed.

Lemma for_append_Forall2 {A B : Type} (f : A -> outcome B) (xs : list A) (ys : list B) :
  Forall2 (fun x y => f x = Return y) xs ys -> for_append f xs = Return ys.
Proof.
  induction 1 as [|x y xs ys Hxy _ IH]; simpl.
  - reflexivity.
  - rewrite Hxy. simpl. rewrite IH. reflexivity.
Qed.

Lemma Forall2_pointwise {A B : Type} (f : A -> outcome B) (P : B -> Prop) (xs : list A) :
  (forall x, In x xs -> exists y, f x = Return y /\ P y) ->
  exists ys, Forall2 (fun x y => f x = Return y) xs ys /\ Forall P ys.
Proof.
  intros H. destruct (for_append_returns f P xs H) as (ys & _ & H2 & HP).
  exists ys. split; assumption.
Qed.

Lemma Forall2_Return_det {A B : Type} (f : A -> outcome B) (xs : list A) (ys zs : list B) :
  Forall2 (fun x y => f x = Return y) xs ys ->
  Forall2 (fun x y => f x = Return y) xs zs -> ys = zs.
Proof.
  intros H. revert zs. induction H as [|x y xs ys Hxy _ IH]; intros zs Hz.
  - inversion Hz. reflexivity.
  - inversion Hz as [|x' z xs' zs' Hxz Hrest]; subst.
    f_equal; [congruence | apply IH; exact Hrest].
Qed.

Lemma sqrt_048_rounds :
  (0.6925 < sqrt 0.48 < 0.6935)%R.
Proof.
  split.
  - replace 0.6925%R with (sqrt (0.6925 * 0.6925)) by (apply sqrt_square; Lra.lra).
    apply sqrt_lt_1; Lra.lra.
  - replace 0.6935%R with (sqrt (0.6935 * 0.6935)) by (apply sqrt_square; Lra.lra).
    apply sqrt_lt_1; Lra.lra.
Qed.

Lemma aggregate_worked_example :
  aggregate [8 # 10; 1; 6 # 10] = Num (sqrt 0.48).
Proof.
  unfold aggregate. cbv zeta.
  change (filter (fun s => Sklearn.Qltb s 1) [8 # 10; 1; 6 # 10])
    with [8 # 10; 6 # 10].
  rewrite GmeanFacts.gmean_pair by reflexivity.
  f_equal. f_equal. unfold Q2R. simpl. Lra.lra.
Qed.

(** C2. When every per-label score equals 1 the filter removes all the K
    scores and the scorer returns [nan]: no fallback value is computed. *)
Theorem multioutput_fscore_all_perfect
    (y_true y_pred : labels) (beta : Q) :
  (forall k, (k < n_cols (as_values y_true))%nat ->
     exists s, column_score (as_values y_true) (as_values y_pred) beta k = Return s
               /\ s == 1) ->
  exists score_list,
    for_append (column_score (as_values y_true) (as_values y_pred) beta)
               (seq 0 (n_cols (as_values y_true))) = Return score_list
    /\ length score_list = n_cols (as_values y_true)
    /\ filter (fun s => Sklearn.Qltb s 1) score_list = []
    /\ multioutput_fscore y_true y_pred beta = Return NaN.
Proof.
  intros Hall.
  destruct (for_append_returns
              (column_score (as_values y_true) (as_values y_pred) beta)
              (fun s => s == 1) (seq 0 (n_cols (as_values y_true))))
    as (sl & Hfor & H2 & Hone).
  { intros k Hk. apply in_seq in Hk. apply Hall. lia. }
  assert (Hfilter : filter (fun s => Sklearn.Qltb s 1) sl = []).
  { rewrite filter_below_one.
    - apply drop_perfect_all_one. exact Hone.
    - eapply Forall_impl; [|exact Hone]. intros s Hs. rewrite Hs.
      split; [discriminate | apply Qle_refl]. }
  exists sl. split; [exact Hfor|]. split; [|split].
  - rewrite <- (Forall2_length_eq H2). apply length_seq.
  - exact Hfilter.
  - rewrite (multioutput_fscore_unfold _ _ _ Hfor). unfold aggregate. cbv zeta.
    rewrite Hfilter. reflexivity.
Qed.

(** C4. On two well-shaped label matrices of one shape whose per-label
    scores are not all equal to 1 the scorer returns a number in [0, 1]. *)
Theorem multioutput_fscore_in_unit_interval
    (y_true y_pred : labels) (beta : Q) :
  well_shaped (as_values y_true) = true ->
  well_shaped (as_values y_pred) = true ->
  same_shape (as_values y_true) (as_values y_pred) ->
  0 <= beta ->
  (exists k s, (k < n_cols (as_values y_true))%nat
     /\ column_score (as_values y_true) (as_values y_pred) beta k = Return s
     /\ ~ s == 1) ->
  exists r, multioutput_fscore y_true y_pred beta = Return (Num r)
            /\ (0 <= r <= 1)%R.
Proof.
  intros Ht Hp Hs Hb (k & s & Hk & Hks & Hne).
  destruct (score_list_returns Ht Hp Hs Hb) as (sl & Hfor & H2 & Hrange).
  rewrite (multioutput_fscore_unfold _ _ _ Hfor). unfold aggregate. cbv zeta.
  rewrite (filter_below_one Hrange).
  destruct (@GmeanFacts.gmean_unit_interval (drop_perfect sl)) as (r & Hr & Hbounds).
  - assert (Hin : In s sl).
    { clear - H2 Hk Hks.
      assert (Hin : In k (seq 0 (n_cols (as_values y_true)))) by (apply in_seq; lia).
      induction H2 as [|x y xs ys Hxy _ IH]; [contradiction|].
      destruct Hin as [->|Hin].
      - left. congruence.
      - right. apply IH. exact Hin. }
    intros Hnil.
    assert (Hs' : In s (drop_perfect sl)).
    { unfold drop_perfect. apply filter_In. split; [exact Hin|].
      destruct (Qeq_bool s 1) eqn:E; [|reflexivity].
      apply Qeq_bool_eq in E. contradiction. }
    rewrite Hnil in Hs'. contradiction.
  - apply drop_perfect_range. exact Hrange.
  - exists r. split; [rewrite Hr; reflexivity | exact Hbounds].
Qed.

(** C10. The scorer gives the same result on a frame and on the array the
    frame holds, for either argument. *)
Theorem multioutput_fscore_container_independent
    (df_true df_pred : DataFrame) (beta : Q) :
  multioutput_fscore (Frame df_true) (Frame df_pred) beta
  = multioutput_fscore (Array (values df_true)) (Array (values df_pred)) beta
  /\ multioutput_fscore (Frame df_true) (Array (values df_pred)) beta
     = multioutput_fscore (Array (values df_true)) (Array (values df_pred)) beta
  /\ multioutput_fscore (Array (values df_true)) (Frame df_pred) beta
     = multioutput_fscore (Array (values df_true)) (Array (values df_pred)) beta.
Proof.
  repeat split.
Qed.

(** ** The feature extractor *)

Module StrFacts.
Import Str.

Lemma lower_char_not_upper (c : ascii) : is_upper (lower_char c) = false.
Proof.
  destruct c as [[] [] [] [] [] [] [] []]; reflexivity.
Qed.

Lemma lower_no_upper (s : string) :
  all_chars (fun c => negb (is_upper c)) (lower s) = true.
Proof.
  induction s as [|c s IH]; simpl.
  - reflexivity.
  - rewrite lower_char_not_upper, IH. reflexivity.
Qed.

Lemma lstrip_all_chars (p : ascii -> bool) (s : string) :
  all_chars p s = true -> all_chars p (lstrip s) = true.
Proof.
  induction s as [|c s IH]; simpl; intros H.
  - reflexivity.
  - apply andb_true_iff in H. destruct H as [Hc Hs].
    destruct (is_space c).
    + apply IH, Hs.
    + simpl. rewrite Hc, Hs. reflexivity.
Qed.

Lemma rstrip_all_chars (p : ascii -> bool) (s : string) :
  all_chars p s = true -> all_chars p (rstrip s) = true.
Proof.
  induction s as [|c s IH]; simpl; intros H.
  - reflexivity.
  - apply andb_true_iff in H. destruct H as [Hc Hs].
    specialize (IH Hs).
    destruct (rstrip s) as [|d t].
    + destruct (is_space c); simpl; [reflexivity|]. rewrite Hc. reflexivity.
    + simpl in *. rewrite Hc, IH. reflexivity.
Qed.

(** A normalised token has no upper-case letter. *)
Lemma strip_lower_no_upper (s : string) :
  all_chars (fun c => negb (is_upper c)) (strip (lower s)) = true.
Proof.
  unfold strip. apply rstrip_all_chars, lstrip_all_chars, lower_no_upper.
Qed.

Lemma strip_lower_not_RT (s : string) :
  String.eqb (strip (lower s)) "RT" = false.
Proof.
  destruct (String.eqb_spec (strip (lower s)) "RT") as [E|_]; [|reflexivity].
  pose proof (strip_lower_no_upper s) as H. rewrite E in H. discriminate.
Qed.

End StrFacts.

Section ExtractorFacts.

Context {nltk : Nltk}.

Lemma pos_tag_nil : pos_tag [] = [].
Proof. reflexivity. Qed.

Lemma pos_tag_cons (token : string) (tokens : list string) :
  exists rest,
    pos_tag (token :: tokens) = (token, tag_of (token :: tokens) 0) :: rest.
Proof.
  unfold pos_tag. simpl. eexists. reflexivity.
Qed.

(** The first word handed to the test of line 88 is a normalised token. *)
Lemma first_word_normalised (sentence first_word first_tag : string)
    (rest : list (string * string)) :
  pos_tag (tokenize sentence) = (first_word, first_tag) :: rest ->
  exists token, first_word = Str.strip (Str.lower (lemmatize token)).
Proof.
  unfold tokenize. cbv zeta.
  destruct (word_tokenize sentence) as [|token tokens]; simpl map.
  - rewrite pos_tag_nil. discriminate.
  - destruct (pos_tag_cons (Str.strip (Str.lower (lemmatize token)))
                (map (fun t => Str.strip (Str.lower (lemmatize t))) tokens))
      as (rest' & ->).
    intros H. injection H as H1 _ _. exists token. symmetry. exact H1.
Qed.

Lemma starting_verb_loop_tag_only (sentence_list : list string) :
  starting_verb_loop sentence_list = tag_only_loop sentence_list.
Proof.
  induction sentence_list as [|sentence rest IH]; simpl.
  - reflexivity.
  - destruct (pos_tag (tokenize sentence)) as [|[first_word first_tag] tl] eqn:E.
    + reflexivity.
    + destruct (first_word_normalised _ E) as (token & ->).
      rewrite StrFacts.strip_lower_not_RT, orb_false_r, IH. reflexivity.
Qed.

End ExtractorFacts.

(** C5. The comparison of the first word with the marker "RT" never
    succeeds, because [tokenize] has put the word in lower case: on every
    text [starting_verb] decides on the tags alone, and on the text
    "RT breaking news", with a tagger that gives "rt" the tag of a noun, it
    returns false. *)
Theorem retweet_marker_never_matches :
  (forall (nltk : Nltk) (text : string),
     starting_verb text = tag_only_loop (sent_tokenize text))
  /\ tokenize (nltk := toy_nltk) "RT breaking news" = ["rt"; "breaking"; "news"]%string
  /\ starting_verb (nltk := toy_nltk) "RT breaking news" = Return false.
Proof.
  split; [|split].
  - intros nltk text. unfold starting_verb. cbv zeta.
    apply starting_verb_loop_tag_only.
  - reflexivity.
  - reflexivity.
Qed.

(** C9. A text that the sentence tokenizer splits into no sentence has the
    feature value false. *)
Theorem starting_verb_no_sentence (nltk : Nltk) (text : string) :
  sent_tokenize text = [] -> starting_verb text = Return false.
Proof.
  intros H. unfold starting_verb. cbv zeta. rewrite H. reflexivity.
Qed.

Lemma starting_verb_no_sentence_witness :
  sent_tokenize (Nltk := toy_nltk) "" = []
  /\ starting_verb (nltk := toy_nltk) "" = Return false.
Proof.
  split; [reflexivity|].
  apply (@starting_verb_no_sentence toy_nltk ""%string). reflexivity.
Defined.

Example starting_verb_run_now :
  starting_verb (nltk := toy_nltk) "Run now" = Return true.
Proof. reflexivity. Qed.

Example starting_verb_the_dog_ran :
  starting_verb (nltk := toy_nltk) "The dog ran" = Return false.
Proof. reflexivity. Qed.

(** A sentence without tokens: the subscript of line 87 raises. *)
Example starting_verb_blank_sentence :
  starting_verb (nltk := toy_nltk) " " = Raise IndexError.
Proof. reflexivity. Qed.

(** ** The overall accuracy *)

Module AccuracyFacts.
Import Sklearn.

Lemma count_true_cons (b : bool) (l : list bool) :
  count_true (b :: l) = (Nat.b2n b + count_true l)%nat.
Proof.
  unfold count_true. simpl. destruct b; reflexivity.
Qed.

Lemma count_true_app (l1 l2 : list bool) :
  count_true (l1 ++ l2) = (count_true l1 + count_true l2)%nat.
Proof.
  unfold count_true. rewrite filter_app, length_app. reflexivity.
Qed.

Lemma count_true_map (g : nat -> bool) (cols : list nat) :
  count_true (map g cols) = list_sum (map (fun k => Nat.b2n (g k)) cols).
Proof.
  induction cols as [|k cols IH]; [reflexivity|].
  simpl map. rewrite count_true_cons, IH. reflexivity.
Qed.

Lemma list_sum_map_add (a b : nat -> nat) (cols : list nat) :
  list_sum (map (fun k => a k + b k)%nat cols)
  = (list_sum (map a cols) + list_sum (map b cols))%nat.
Proof.
  induction cols as [|k cols IH]; simpl; [reflexivity|]. rewrite IH. lia.
Qed.

Lemma list_sum_map_zero (cols : list nat) :
  list_sum (map (fun _ => 0%nat) cols) = 0%nat.
Proof.
  induction cols as [|k cols IH]; simpl; [reflexivity | exact IH].
Qed.

(** Counting the matches column by column or row by row gives one total. *)
Lemma double_count {X : Type} (f : X -> nat -> bool) (rows : list X) (cols : list nat) :
  list_sum (map (fun k => count_true (map (fun x => f x k) rows)) cols)
  = count_true (flat_map (fun x => map (f x) cols) rows).
Proof.
  induction rows as [|x rows IH].
  - simpl. apply list_sum_map_zero.
  - simpl flat_map. rewrite count_true_app, <- IH, count_true_map.
    rewrite <- list_sum_map_add. f_equal. apply map_ext. intros k.
    simpl map. apply count_true_cons.
Qed.

Lemma flat_map_length_const {X : Type} (f : X -> nat -> bool) (rows : list X) (cols : list nat) :
  length (flat_map (fun x => map (f x) cols) rows) = (length rows * length cols)%nat.
Proof.
  induction rows as [|x rows IH]; simpl; [reflexivity|].
  rewrite length_app, length_map, IH. reflexivity.
Qed.

Lemma Qnat_add (n m : nat) : Qnat (n + m) == Qnat n + Qnat m.
Proof.
  unfold Qnat. rewrite Nat2Z.inj_add, inject_Z_plus. reflexivity.
Qed.

Lemma Qnat_mul (n m : nat) : Qnat (n * m) == Qnat n * Qnat m.
Proof.
  unfold Qnat. rewrite Nat2Z.inj_mul, inject_Z_mult. reflexivity.
Qed.

Lemma Qnat_nonzero (n : nat) : n <> 0%nat -> ~ Qnat n == 0.
Proof.
  intros H E. pose proof (SklearnFacts.Qnat_pos (n := n)) as P.
  assert (0 < Qnat n) as L by (apply P; lia). rewrite E in L. discriminate.
Qed.

Lemma Qsum_map_div (c : nat -> nat) (d : Q) (cols : list nat) :
  Qsum (map (fun k => Qnat (c k) / d) cols) == Qnat (list_sum (map c cols)) / d.
Proof.
  induction cols as [|k cols IH]; simpl.
  - unfold Qdiv. unfold Qnat. simpl. ring.
  - rewrite IH, Qnat_add. unfold Qdiv. ring.
Qed.

Lemma mean_bool_cons (b : bool) (l : list bool) :
  mean_bool (b :: l)
  = Some (Qnat (count_true (b :: l)) / Qnat (length (b :: l))).
Proof. reflexivity. Qed.

Lemma present_Some (q : nat -> Q) (cols : list nat) :
  flat_map (fun x : option Q => match x with Some v => [v] | None => [] end)
           (map (fun k => Some (q k)) cols)
  = map q cols.
Proof.
  induction cols as [|k cols IH]; simpl; [reflexivity|]. rewrite IH. reflexivity.
Qed.

Lemma present_None (cols : list nat) :
  flat_map (fun x : option Q => match x with Some v => [v] | None => [] end)
           (map (fun _ => @None Q) cols)
  = [].
Proof.
  induction cols as [|k cols IH]; simpl; [reflexivity | exact IH].
Qed.

Lemma mean_bool_nonempty (l : list bool) :
  length l <> 0%nat ->
  mean_bool l = Some (Qnat (count_true l) / Qnat (length l)).
Proof.
  destruct l as [|b l]; [intros H; contradiction H; reflexivity|].
  intros _. apply mean_bool_cons.
Qed.

Lemma present_series_mean (q : nat -> Q) (cols : list nat) :
  length (map q cols) <> 0%nat ->
  series_mean (map (fun k => Some (q k)) cols)
  = Some (Qsum (map q cols) / Qnat (length (map q cols))).
Proof.
  intros H. unfold series_mean. rewrite present_Some.
  destruct (map q cols); [contradiction H; reflexivity | reflexivity].
Qed.

(** The mean of the column means is the mean over the cells. *)
Lemma mean_of_column_means {X : Type} (f : X -> nat -> bool) (rows : list X)
    (cols : list nat) :
  same_float
    (series_mean (map (fun k => mean_bool (map (fun x => f x k) rows)) cols))
    (mean_bool (flat_map (fun x => map (f x) cols) rows)).
Proof.
  destruct rows as [|x0 rows0].
  - simpl map. simpl flat_map. unfold series_mean.
    rewrite (present_None cols). exact I.
  - set (rows := x0 :: rows0).
    assert (Hrows : length rows <> 0%nat) by (subst rows; simpl; lia).
    rewrite (map_ext _ (fun k => Some (Qnat (count_true (map (fun x => f x k) rows))
                                       / Qnat (length rows)))).
    2:{ intros k. subst rows. simpl map. rewrite mean_bool_cons.
        simpl length. rewrite length_map. reflexivity. }
    destruct cols as [|k0 cols0].
    + simpl map.
      assert (E : flat_map (fun _ : X => @nil bool) rows = []).
      { clear. induction rows as [|x rows IH]; simpl; [reflexivity | exact IH]. }
      rewrite E. exact I.
    + set (cols := k0 :: cols0).
      assert (Hcols : length cols <> 0%nat) by (subst cols; simpl; lia).
      pose proof (flat_map_length_const f rows cols) as Hlen.
      rewrite present_series_mean by (rewrite length_map; exact Hcols).
      rewrite mean_bool_nonempty by (rewrite Hlen; nia).
      unfold same_float.
      rewrite Hlen, length_map, Qsum_map_div, double_count, Qnat_mul.
      field. split; apply Qnat_nonzero; assumption.
Qed.

Lemma combine_column_cells (y_pred y_test : ndarray) (k : nat) :
  equal_column y_pred y_test k
  = map (fun rows => (nth k (fst rows) 0 =? nth k (snd rows) 0)%Z)
        (combine (cells y_pred) (cells y_test)).
Proof.
  unfold equal_column, column_cells.
  generalize (cells y_test). induction (cells y_pred) as [|r rs IH];
    intros [|t ts]; simpl; try reflexivity.
  rewrite IH. reflexivity.
Qed.

End AccuracyFacts.

(** C6. The overall accuracy is the mean, over every (sample, label) cell of
    the prediction and truth matrices, of the indicator that the predicted
    value equals the true one. *)
Theorem overall_accuracy_is_cell_mean (y_pred : ndarray) (y_test : DataFrame) :
  same_shape y_pred (values y_test) ->
  exists accuracy,
    overall_accuracy y_pred y_test = Return accuracy
    /\ same_float accuracy (mean_over_cells y_pred (values y_test)).
Proof.
  intros [Hrows Hcols]. unfold overall_accuracy. cbv zeta.
  rewrite Hrows, Hcols, !Nat.eqb_refl. cbn [andb].
  eexists. split; [reflexivity|].
  unfold mean_over_cells, cell_matches.
  rewrite (map_ext _ (fun k => mean_bool
             (map (fun rows => (nth k (fst rows) 0 =? nth k (snd rows) 0)%Z)
                  (combine (cells y_pred) (cells (values y_test)))))).
  2:{ intros k. rewrite AccuracyFacts.combine_column_cells. reflexivity. }
  apply (AccuracyFacts.mean_of_column_means
           (fun rows k => (nth k (fst rows) 0 =? nth k (snd rows) 0)%Z)).
Qed.

Lemma overall_accuracy_is_cell_mean_witness :
  same_shape toy_y_pred (values toy_y_test)
  /\ exists accuracy,
       overall_accuracy toy_y_pred toy_y_test = Return accuracy
       /\ same_float accuracy (mean_over_cells toy_y_pred (values toy_y_test)).
Proof.
  split; [split; reflexivity|].
  apply (@overall_accuracy_is_cell_mean toy_y_pred toy_y_test).
  split; reflexivity.
Defined.

Example overall_accuracy_toy :
  exists accuracy, overall_accuracy toy_y_pred toy_y_test = Return (Some accuracy)
                   /\ accuracy == 3 # 4.
Proof.
  eexists. split; [reflexivity|]. reflexivity.
Qed.

(** ** Traces *)

Lemma io_bind_emit {B : Type} (e : event) (k : unit -> io B) (tr : list event) :
  io_bind (emit e) k tr = k tt (tr ++ [e]).
Proof. reflexivity. Qed.

Lemma io_bind_print {B : Type} (args : list printed) (k : unit -> io B)
    (tr : list event) :
  io_bind (print args) k tr = k tt (tr ++ [Stdout args]).
Proof. reflexivity. Qed.

Lemma io_bind_lift {A B : Type} (m : outcome A) (a : A) (k : A -> io B)
    (tr : list event) :
  m = Return a -> io_bind (lift m) k tr = k a tr.
Proof. intros ->. reflexivity. Qed.

Lemma for_in_trace {A : Type} (xs : list A) (body : A -> io unit)
    (events : A -> list event) :
  (forall x tr, In x xs -> body x tr = (Return tt, tr ++ events x)) ->
  forall tr, for_in xs body tr = (Return tt, tr ++ flat_map events xs).
Proof.
  induction xs as [|x xs IH]; intros Hbody tr.
  - simpl. rewrite app_nil_r. reflexivity.
  - simpl. unfold io_bind at 1. rewrite Hbody by (left; reflexivity).
    rewrite IH.
    + rewrite <- app_assoc. reflexivity.
    + intros y tr' Hy. apply Hbody. right. exact Hy.
Qed.

Section EvaluatorFacts.

Context {world : Collaborators}.

Variable model : estimator.
Variable X_test : list string.
Variable y_test : DataFrame.
Variable category_names : list string.
Variable y_pred : ndarray.

Hypothesis predicted : estimator_predict model X_test = Return y_pred.
Hypothesis test_shaped : well_shaped (values y_test) = true.
Hypothesis pred_shaped : well_shaped y_pred = true.
Hypothesis shapes : same_shape (values y_test) y_pred.
Hypothesis names_fit : (length category_names <= n_cols (values y_test))%nat.

Lemma category_body_trace (i : nat) (tr : list event) :
  In i (seq 0 (length category_names)) ->
  (print [Text separator] ;;
   yt <- lift (column (values y_test) i) ;;
   yp <- lift (column y_pred i) ;;
   print [Text "Category:"; Text (nth i category_names ""%string); Text Str.nl;
          Text (classification_report yt yp)])%io tr
  = (Return tt, tr ++ category_output y_pred y_test category_names i).
Proof.
  intros Hi. apply in_seq in Hi. destruct shapes as [_ Hcols].
  rewrite io_bind_print.
  rewrite (io_bind_lift _ _ (column_in_range (values y_test) (k := i) ltac:(lia))).
  rewrite (io_bind_lift _ _ (column_in_range y_pred (k := i) ltac:(lia))).
  unfold print, emit, category_output. rewrite <- app_assoc. reflexivity.
Qed.

(** What a run of [evaluate_model] returns and appends to the trace. *)
Lemma evaluate_model_trace (tr : list event) :
  exists multioutput_f1 accuracy,
    multioutput_fscore (Frame y_test) (Array y_pred) 1 = Return multioutput_f1
    /\ overall_accuracy y_pred y_test = Return accuracy
    /\ evaluate_model model X_test y_test category_names tr
       = (Return tt,
          tr ++ [Predict]
             ++ flat_map (category_output y_pred y_test category_names)
                         (seq 0 (length category_names))
             ++ [Stdout [Percent2f ("Average overall accuracy:     {0:.2f}%" ++ Str.nl)
                                   (times100 (npfloat_of accuracy))];
                 Stdout [Percent2f ("F1 score (custom definition): {0:.2f}%" ++ Str.nl)
                                   (times100 multioutput_f1)]]).
Proof.
  assert (Hbeta : 0 <= 1) by discriminate.
  destruct (@score_list_returns (values y_test) y_pred 1
              test_shaped pred_shaped shapes Hbeta) as (sl & Hfor & _).
  pose proof (@multioutput_fscore_unfold (Frame y_test) (Array y_pred) 1 sl Hfor)
    as Hf1.
  assert (shapes' : same_shape y_pred (values y_test)).
  { destruct shapes as [H1 H2]. split; symmetry; assumption. }
  assert (Hacc : exists accuracy, overall_accuracy y_pred y_test = Return accuracy).
  { unfold overall_accuracy. cbv zeta. destruct shapes' as [-> ->].
    rewrite !Nat.eqb_refl. eexists. reflexivity. }
  destruct Hacc as (accuracy & Hacc).
  exists (aggregate sl), accuracy. split; [exact Hf1|]. split; [exact Hacc|].
  unfold evaluate_model.
  rewrite io_bind_emit.
  rewrite (io_bind_lift _ _ predicted).
  unfold io_bind at 1.
  rewrite (for_in_trace _ _ (category_output y_pred y_test category_names))
    by (intros i tr' Hi; apply category_body_trace; exact Hi).
  rewrite (io_bind_lift _ _ Hf1).
  rewrite (io_bind_lift _ _ Hacc).
  rewrite io_bind_print. unfold print, emit.
  rewrite <- !app_assoc. reflexivity.
Qed.

End EvaluatorFacts.

Lemma toy_evaluation_hypotheses :
  estimator_predict (Collaborators := toy_world) tt ["water"]%string = Return toy_y_pred
  /\ well_shaped (values toy_y_test) = true
  /\ well_shaped toy_y_pred = true
  /\ same_shape (values toy_y_test) toy_y_pred
  /\ (length (columns toy_y_test) <= n_cols (values toy_y_test))%nat.
Proof.
  repeat split; simpl; lia.
Defined.

(** C7, as the specification has it, fails: on the two-sample test partition
    the call writes to standard output (the first line is the separator)
    and returns no value. *)
Lemma evaluate_model_writes_output :
  exists tr,
    evaluate_model (world := toy_world) tt ["water"]%string toy_y_test
                   (columns toy_y_test) []
    = (Return tt, tr)
    /\ In (Stdout [Text separator]) tr
    /\ tr <> [].
Proof.
  destruct toy_evaluation_hypotheses as (H1 & H2 & H3 & H4 & H5).
  destruct (@evaluate_model_trace toy_world tt ["water"]%string toy_y_test
              (columns toy_y_test) toy_y_pred H1 H2 H3 H4 H5 [])
    as (f1 & acc & _ & _ & H).
  eexists. split; [exact H|]. split.
  - simpl. right. left. reflexivity.
  - discriminate.
Qed.

(** ** The entry point *)

(** C8. With an argument vector of a length other than three (script name,
    database path, model path) [main] prints the usage text and does nothing
    else: the trace gains that one line and no event of a training run. *)
Theorem main_wrong_argument_count
    (world : Collaborators) (argv : list string) (tr : list event) :
  length argv <> 3%nat ->
  exists new,
    main argv tr = (Return tt, tr ++ new)
    /\ new = [Stdout [Text usage]]
    /\ forallb (fun e => negb (is_training_event e)) new = true.
Proof.
  intros H. exists [Stdout [Text usage]]. unfold main.
  destruct (Nat.eqb_spec (length argv) 3) as [E|_]; [contradiction|].
  repeat split.
Qed.

Lemma main_wrong_argument_count_witness :
  length ["train_classifier.py"; "DisasterResponse.db"]%string <> 3%nat
  /\ exists new,
       main (world := toy_world) ["train_classifier.py"; "DisasterResponse.db"]%string []
       = (Return tt, [] ++ new)
       /\ new = [Stdout [Text usage]]
       /\ forallb (fun e => negb (is_training_event e)) new = true.
Proof.
  split; [simpl; lia|].
  apply (@main_wrong_argument_count toy_world
           ["train_classifier.py"; "DisasterResponse.db"]%string []).
  simpl; lia.
Defined.

(** With the two paths the run starts by announcing and reading the
    database. *)
Example main_two_paths_starts_loading :
  exists rest,
    snd (main (world := toy_world)
              ["train_classifier.py"; "DisasterResponse.db"; "model.p"]%string [])
    = Stdout [Text ("Loading data..." ++ Str.nl ++ "    DATABASE: "
                    ++ "DisasterResponse.db")]
      :: ReadDatabase "DisasterResponse.db" :: TrainTestSplit :: rest.
Proof.
  destruct toy_evaluation_hypotheses as (H1 & H2 & H3 & H4 & H5).
  cbv -[evaluate_model].
  match goal with
  | |- context [@evaluate_model ?w ?m ?X ?y ?names ?tr] =>
      destruct (@evaluate_model_trace w m X y names toy_y_pred
                  H1 H2 H3 H4 H5 tr) as (f1 & acc & _ & _ & H);
      rewrite H
  end.
  eexists. reflexivity.
Qed.

(** ** The statements at concrete matrices *)

Lemma toy_scorer_hypotheses :
  well_shaped (as_values (Frame toy_y_test)) = true
  /\ well_shaped (as_values (Array toy_y_pred)) = true
  /\ same_shape (as_values (Frame toy_y_test)) (as_values (Array toy_y_pred))
  /\ 0 <= 1.
Proof.
  repeat split. discriminate.
Defined.

Lemma multioutput_fscore_all_perfect_witness :
  multioutput_fscore (Frame toy_y_test) (Frame toy_y_test) 1 = Return NaN.
Proof.
  destruct (@multioutput_fscore_all_perfect (Frame toy_y_test) (Frame toy_y_test) 1)
    as (sl & _ & _ & _ & H).
  - intros k Hk. destruct k as [|[|k]].
    + eexists. split; [vm_compute; reflexivity | reflexivity].
    + eexists. split; [vm_compute; reflexivity | reflexivity].
    + simpl in Hk. lia.
  - exact H.
Defined.

Lemma multioutput_fscore_in_unit_interval_witness :
  exists r, multioutput_fscore (Frame toy_y_test) (Array toy_y_pred) 1 = Return (Num r)
            /\ (0 <= r <= 1)%R.
Proof.
  destruct toy_scorer_hypotheses as (H1 & H2 & H3 & H4).
  apply (@multioutput_fscore_in_unit_interval (Frame toy_y_test) (Array toy_y_pred) 1
           H1 H2 H3 H4).
  exists 1%nat. eexists. split; [simpl; lia|]. split.
  - vm_compute. reflexivity.
  - intro E. vm_compute in E. discriminate E.
Defined.

(** The worked example on matrices: the per-label scores are 0.8, 1.0 and
    0.6 and the scorer returns sqrt 0.48. *)
Example worked_example_scores :
  exists score_list,
    for_append (column_score worked_y_true worked_y_pred 1) (seq 0 3)
    = Return score_list
    /\ Forall2 Qeq score_list [8 # 10; 1; 6 # 10].
Proof.
  eexists. split; [vm_compute; reflexivity|].
  repeat constructor.
Qed.

Example worked_example_result :
  multioutput_fscore (Array worked_y_true) (Array worked_y_pred) 1
  = Return (Num (sqrt 0.48)).
Proof.
  assert (Hfor : for_append (column_score worked_y_true worked_y_pred 1) (seq 0 3)
                 = Return [16941456 # 21176820; 8168202 # 8168202; 7715736 # 12859560])
    by (vm_compute; reflexivity).
  rewrite (@multioutput_fscore_unfold (Array worked_y_true) (Array worked_y_pred) 1 _ Hfor).
  unfold aggregate. cbv zeta.
  change (filter (fun s => Sklearn.Qltb s 1)
            [16941456 # 21176820; 8168202 # 8168202; 7715736 # 12859560])
    with [16941456 # 21176820; 7715736 # 12859560].
  rewrite GmeanFacts.gmean_pair by reflexivity.
  do 3 f_equal.
  rewrite (Qeq_eqR (16941456 # 21176820) (8 # 10)) by reflexivity.
  rewrite (Qeq_eqR (7715736 # 12859560) (6 # 10)) by reflexivity.
  unfold Q2R. simpl. Lra.lra.
Qed.

(** A prediction matrix with fewer columns than the truth: the subscript of
    line 129 raises. *)
Example multioutput_fscore_missing_column :
  multioutput_fscore
    (Array toy_y_pred)
    (Array {| n_rows := 2; n_cols := 1; cells := [[1]; [0]]%Z |}) 1
  = Raise IndexError.
Proof. vm_compute. reflexivity. Qed.

(** A prediction matrix with another number of rows: the library call
    refuses the two columns. *)
Example multioutput_fscore_missing_row :
  multioutput_fscore
    (Array toy_y_pred)
    (Array {| n_rows := 1; n_cols := 2; cells := [[1; 0]]%Z |}) 1
  = Raise ValueError.
Proof. vm_compute. reflexivity. Qed.

(** A matrix without columns has no score to aggregate. *)
Example multioutput_fscore_no_column :
  multioutput_fscore
    (Array {| n_rows := 2; n_cols := 0; cells := [[]; []] |})
    (Array {| n_rows := 2; n_cols := 0; cells := [[]; []] |}) 1
  = Return NaN.
Proof. reflexivity. Qed.

(** * Further properties *)

(** ** Normalised tokens *)

Module StripFacts.
Import Str.

Lemma rstrip_idempotent (s : string) : rstrip (rstrip s) = rstrip s.
Proof.
  induction s as [|c s IH]; simpl; [reflexivity|].
  destruct (rstrip s) as [|d t] eqn:E.
  - destruct (is_space c) eqn:Ec; simpl; [reflexivity|].
    rewrite Ec. reflexivity.
  - simpl. simpl in IH. rewrite IH. reflexivity.
Qed.

Lemma lstrip_no_leading_space (s : string) : no_leading_space (lstrip s) = true.
Proof.
  induction s as [|c s IH]; simpl; [reflexivity|].
  destruct (is_space c) eqn:E; [exact IH|]. simpl. rewrite E. reflexivity.
Qed.

Lemma lstrip_fixed (s : string) : no_leading_space s = true -> lstrip s = s.
Proof.
  destruct s as [|c s]; simpl; [reflexivity|].
  intros H. apply negb_true_iff in H. rewrite H. reflexivity.
Qed.

Lemma rstrip_no_leading_space (s : string) :
  no_leading_space s = true -> no_leading_space (rstrip s) = true.
Proof.
  destruct s as [|c s]; simpl; [reflexivity|].
  intros H. destruct (rstrip s); [|exact H].
  apply negb_true_iff in H. rewrite H. simpl. rewrite H. reflexivity.
Qed.

Lemma strip_idempotent (s : string) : strip (strip s) = strip s.
Proof.
  unfold strip.
  rewrite (lstrip_fixed (rstrip (lstrip s))).
  - apply rstrip_idempotent.
  - apply rstrip_no_leading_space, lstrip_no_leading_space.
Qed.

Lemma lower_char_fixed (c : ascii) : is_upper c = false -> lower_char c = c.
Proof.
  unfold lower_char. intros ->. reflexivity.
Qed.

Lemma lower_fixed (s : string) :
  all_chars (fun c => negb (is_upper c)) s = true -> lower s = s.
Proof.
  induction s as [|c s IH]; simpl; [reflexivity|].
  intros H. apply andb_true_iff in H. destruct H as [Hc Hs].
  apply negb_true_iff in Hc. rewrite (lower_char_fixed _ Hc), (IH Hs).
  reflexivity.
Qed.

End StripFacts.

(** X1. [tokenize] gives one clean token per token of [word_tokenize], in
    order: the [i]-th clean token is the [i]-th token lemmatised, lower-cased
    and stripped.  A clean token has no upper-case ASCII letter and neither
    begins nor ends with white space, so that lower-casing or stripping it
    again changes nothing. *)
Theorem tokenize_normalised (nltk : Nltk) (text : string) :
  length (tokenize text) = length (word_tokenize text)
  /\ Forall2 (fun raw token => token = Str.strip (Str.lower (lemmatize raw)))
             (word_tokenize text) (tokenize text)
  /\ Forall (fun token =>
               Str.all_chars (fun c => negb (Str.is_upper c)) token = true
               /\ Str.lower token = token
               /\ Str.strip token = token)
            (tokenize text).
Proof.
  unfold tokenize. cbv zeta. split; [apply length_map|]. split.
  - induction (word_tokenize text) as [|raw raws IH]; simpl; constructor.
    + reflexivity.
    + exact IH.
  - apply Forall_forall. intros token Hin.
    apply in_map_iff in Hin. destruct Hin as (raw & <- & _).
    pose proof (StrFacts.strip_lower_no_upper (lemmatize raw)) as Hup.
    split; [exact Hup|]. split.
    + apply StripFacts.lower_fixed. exact Hup.
    + apply StripFacts.strip_idempotent.
Qed.

(** ** The three outcomes of [starting_verb] *)

Section StartingVerbOutcomes.

Context {nltk : Nltk}.

Lemma tag_only_loop_step (sentence : string) (rest : list string) :
  tag_only_loop (sentence :: rest)
  = match first_tag sentence with
    | None => Raise IndexError
    | Some tag => if verb_tag tag then Return true else tag_only_loop rest
    end.
Proof.
  simpl. unfold first_tag, verb_tag.
  destruct (pos_tag (tokenize sentence)) as [|[w t] tl]; reflexivity.
Qed.

Lemma tag_only_loop_true (sentence_list : list string) :
  tag_only_loop sentence_list = Return true <->
  exists before sentence after,
    sentence_list = before ++ sentence :: after
    /\ Forall leads_with_other before
    /\ leads_with_verb sentence.
Proof.
  induction sentence_list as [|s rest IH].
  - simpl. split; [discriminate|].
    intros (before & s & after & H & _). destruct before; discriminate.
  - rewrite tag_only_loop_step. split.
    + destruct (first_tag s) as [tag|] eqn:Et; [|discriminate].
      destruct (verb_tag tag) eqn:Ev.
      * intros _. exists [], s, rest. split; [reflexivity|].
        split; [constructor|]. exists tag. split; assumption.
      * intros H. apply IH in H. destruct H as (before & s' & after & -> & Hb & Hv).
        exists (s :: before), s', after. split; [reflexivity|].
        split; [|exact Hv]. constructor; [|exact Hb].
        exists tag. split; assumption.
    + intros (before & s' & after & Heq & Hb & Hv).
      destruct before as [|b before]; simpl in Heq; injection Heq as <- ->.
      * destruct Hv as (tag & -> & ->). reflexivity.
      * destruct (Forall_inv Hb) as (tag & Et & Ev). rewrite Et, Ev.
        apply IH. exists before, s', after.
        split; [reflexivity|]. split; [exact (Forall_inv_tail Hb) | exact Hv].
Qed.

Lemma tag_only_loop_false (sentence_list : list string) :
  tag_only_loop sentence_list = Return false <->
  Forall leads_with_other sentence_list.
Proof.
  induction sentence_list as [|s rest IH].
  - simpl. split; [constructor | reflexivity].
  - rewrite tag_only_loop_step. split.
    + destruct (first_tag s) as [tag|] eqn:Et; [|discriminate].
      destruct (verb_tag tag) eqn:Ev; [discriminate|].
      intros H. constructor; [exists tag; split; assumption | apply IH, H].
    + intros H. destruct (Forall_inv H) as (tag & Et & Ev). rewrite Et, Ev.
      apply IH. exact (Forall_inv_tail H).
Qed.

Lemma tag_only_loop_raises (sentence_list : list string) (e : exn) :
  tag_only_loop sentence_list = Raise e <->
  e = IndexError
  /\ exists before sentence after,
       sentence_list = before ++ sentence :: after
       /\ Forall leads_with_other before
       /\ tokenize sentence = [].
Proof.
  assert (Hnone : forall s, first_tag s = None <-> tokenize s = []).
  { intros s. unfold first_tag. destruct (tokenize s) as [|t ts] eqn:E.
    - rewrite pos_tag_nil. split; reflexivity.
    - destruct (pos_tag_cons t ts) as (tl & ->). split; discriminate. }
  induction sentence_list as [|s rest IH].
  - simpl. split; [discriminate|].
    intros (_ & before & s & after & H & _). destruct before; discriminate.
  - rewrite tag_only_loop_step. split.
    + destruct (first_tag s) as [tag|] eqn:Et.
      * destruct (verb_tag tag) eqn:Ev; [discriminate|].
        intros H. apply IH in H.
        destruct H as (-> & before & s' & after & -> & Hb & Hn).
        split; [reflexivity|]. exists (s :: before), s', after.
        split; [reflexivity|]. split; [|exact Hn].
        constructor; [exists tag; split; assumption | exact Hb].
      * intros H. injection H as <-. split; [reflexivity|].
        exists [], s, rest. split; [reflexivity|]. split; [constructor|].
        apply Hnone. exact Et.
    + intros (-> & before & s' & after & Heq & Hb & Hn).
      destruct before as [|b before]; simpl in Heq; injection Heq as <- ->.
      * rewrite (proj2 (Hnone s) Hn). reflexivity.
      * destruct (Forall_inv Hb) as (tag & Et & Ev). rewrite Et, Ev.
        apply IH. split; [reflexivity|].
        exists before, s', after.
        split; [reflexivity|]. split; [exact (Forall_inv_tail Hb) | exact Hn].
Qed.

End StartingVerbOutcomes.

(** X2. [starting_verb] returns True exactly when some sentence begins with
    a token tagged VB or VBP and every sentence before it has a first token
    with another tag. *)
Theorem starting_verb_true_iff (nltk : Nltk) (text : string) :
  starting_verb text = Return true <->
  exists before sentence after,
    sent_tokenize text = before ++ sentence :: after
    /\ Forall leads_with_other before
    /\ leads_with_verb sentence.
Proof.
  unfold starting_verb. cbv zeta. rewrite starting_verb_loop_tag_only.
  apply tag_only_loop_true.
Qed.

(** X3. [starting_verb] returns False exactly when every sentence has a
    first token and none of these is tagged VB or VBP. *)
Theorem starting_verb_false_iff (nltk : Nltk) (text : string) :
  starting_verb text = Return false <->
  Forall leads_with_other (sent_tokenize text).
Proof.
  unfold starting_verb. cbv zeta. rewrite starting_verb_loop_tag_only.
  apply tag_only_loop_false.
Qed.

(** X4. [starting_verb] raises exactly when it reaches a sentence without
    tokens before any sentence that begins with a verb, and the exception is
    the IndexError of the subscript [pos_tags[0]]. *)
Theorem starting_verb_raises_iff (nltk : Nltk) (text : string) (e : exn) :
  starting_verb text = Raise e <->
  e = IndexError
  /\ exists before sentence after,
       sent_tokenize text = before ++ sentence :: after
       /\ Forall leads_with_other before
       /\ tokenize sentence = [].
Proof.
  unfold starting_verb. cbv zeta. rewrite starting_verb_loop_tag_only.
  apply tag_only_loop_raises.
Qed.

(** ** [transform] *)

Lemma for_append_Return_inv {A B : Type} (f : A -> outcome B) (xs : list A)
    (ys : list B) :
  for_append f xs = Return ys -> Forall2 (fun x y => f x = Return y) xs ys.
Proof.
  revert ys. induction xs as [|x xs IH]; simpl; intros ys H.
  - injection H as <-. constructor.
  - destruct (f x) as [y|e] eqn:Ex; simpl in H; [|discriminate].
    destruct (for_append f xs) as [ys'|e] eqn:Exs; simpl in H; [|discriminate].
    injection H as <-. constructor; [exact Ex | apply IH; reflexivity].
Qed.

Lemma for_append_Raise_inv {A B : Type} (f : A -> outcome B) (xs : list A)
    (e : exn) :
  for_append f xs = Raise e <->
  exists before x after ys,
    xs = before ++ x :: after
    /\ Forall2 (fun x y => f x = Return y) before ys
    /\ f x = Raise e.
Proof.
  induction xs as [|x xs IH]; simpl.
  - split; [discriminate|].
    intros (before & x & after & ys & H & _). destruct before; discriminate.
  - split.
    + destruct (f x) as [y|e'] eqn:Ex; simpl.
      * destruct (for_append f xs) as [ys'|e'] eqn:Exs; simpl; [discriminate|].
        intros H. injection H as ->.
        destruct (proj1 IH eq_refl) as (before & x' & after & ys & -> & H2 & Hx').
        exists (x :: before), x', after, (y :: ys).
        split; [reflexivity|]. split; [constructor; assumption | exact Hx'].
      * intros H. injection H as ->. exists [], x, xs, [].
        split; [reflexivity|]. split; [constructor | exact Ex].
    + intros (before & x' & after & ys & Heq & H2 & Hx').
      destruct before as [|b before]; simpl in Heq; injection Heq as <- ->.
      * rewrite Hx'. reflexivity.
      * inversion H2 as [|? y ? ys' Hb H2']; subst. rewrite Hb. simpl.
        rewrite (proj2 IH); [reflexivity|].
        exists before, x', after, ys'. repeat split; assumption.
Qed.

(** X5. [transform] returns one value per message, the value
    [starting_verb] returns for it; it raises as soon as one message does,
    with that message's exception. *)
Theorem transform_pointwise (nltk : Nltk) (X : list string) :
  (forall flags, transform X = Return flags <->
     Forall2 (fun text value => starting_verb text = Return value) X flags)
  /\ (forall e, transform X = Raise e <->
        exists before text after flags,
          X = before ++ text :: after
          /\ Forall2 (fun text value => starting_verb text = Return value)
                     before flags
          /\ starting_verb text = Raise e).
Proof.
  unfold transform. split.
  - intros bs. split; [apply for_append_Return_inv | apply for_append_Forall2].
  - intros e. apply for_append_Raise_inv.
Qed.

(** ** The score of a perfect prediction *)

Module PerfectFacts.
Import Sklearn SklearnFacts FbetaFacts.

Lemma insert_label_head (c : Z) (l : list Z) : In c (insert_label c l).
Proof.
  induction l as [|d l IH]; simpl; [left; reflexivity|].
  destruct (c <? d)%Z; [left; reflexivity|].
  destruct (Z.eqb_spec c d) as [->|_]; [left; reflexivity | right; exact IH].
Qed.

Lemma insert_label_keeps (c x : Z) (l : list Z) :
  In x l -> In x (insert_label c l).
Proof.
  induction l as [|d l IH]; simpl; [contradiction|].
  intros H. destruct (c <? d)%Z; [right; exact H|].
  destruct (c =? d)%Z; [exact H|].
  destruct H as [->|H]; [left; reflexivity | right; apply IH, H].
Qed.

Lemma unique_labels_complete (y_true y_pred : list Z) (x : Z) :
  In x (y_true ++ y_pred) -> In x (unique_labels y_true y_pred).
Proof.
  unfold unique_labels. induction (y_true ++ y_pred) as [|c l IH]; simpl.
  - contradiction.
  - intros [->|H]; [apply insert_label_head | apply insert_label_keeps, IH, H].
Qed.

Lemma tp_sum_same (c : Z) (y : list Z) : tp_sum c y y = true_sum c y.
Proof.
  unfold tp_sum, true_sum. induction y as [|t y IH]; simpl; [reflexivity|].
  destruct (t =? c)%Z; simpl; rewrite IH; reflexivity.
Qed.

Lemma prf_divide_same (n : nat) : (0 < n)%nat -> prf_divide n n == 1.
Proof.
  intros H. unfold prf_divide.
  destruct (Nat.eqb_spec n 0) as [E|_]; [lia|].
  assert (P : 0 < Qnat n) by (apply Qnat_pos, H).
  field. intros E. rewrite E in P. discriminate.
Qed.

Lemma fbeta_formula_one (b2 p r : Q) :
  0 <= b2 -> p == 1 -> r == 1 ->
  (1 + b2) * p * r / (if Qeq_bool (b2 * p + r) 0 then 1 else b2 * p + r) == 1.
Proof.
  intros Hb Hp Hr.
  assert (Hpos : 0 < b2 * p + r) by (rewrite Hp, Hr; Lqa.lra).
  destruct (Qeq_bool (b2 * p + r) 0) eqn:E.
  - apply Qeq_bool_eq in E. rewrite E in Hpos. discriminate.
  - rewrite Hp, Hr. field. Lqa.lra.
Qed.

Lemma square_nonneg (beta : Q) : 0 <= beta * beta.
Proof.
  destruct (Qlt_le_dec beta 0) as [H|H].
  - setoid_replace (beta * beta) with ((- beta) * (- beta)) by ring.
    apply Qmult_le_0_compat; Lqa.lra.
  - apply Qmult_le_0_compat; assumption.
Qed.

Lemma class_fbeta_same (beta : Q) (c : Z) (y : list Z) :
  (0 < true_sum c y)%nat -> class_fbeta beta c y y == 1.
Proof.
  intros H. unfold class_fbeta. cbv zeta.
  apply fbeta_formula_one.
  - apply square_nonneg.
  - unfold precision. rewrite tp_sum_same. apply (prf_divide_same H).
  - unfold recall. rewrite tp_sum_same. apply (prf_divide_same H).
Qed.

Lemma weighted_sum_same (F W : Z -> Q) (classes : list Z) :
  (forall c, F c * W c == W c) ->
  Qsum (map (fun aw => fst aw * snd aw) (combine (map F classes) (map W classes)))
  == Qsum (map W classes).
Proof.
  intros H. induction classes as [|c classes IH]; simpl.
  - reflexivity.
  - rewrite IH, H. reflexivity.
Qed.

Lemma Qsum_member (W : Z -> Q) (classes : list Z) (c : Z) :
  (forall x, 0 <= W x) -> In c classes -> W c <= Qsum (map W classes).
Proof.
  intros HW. induction classes as [|d classes IH]; simpl; [contradiction|].
  pose proof (Qsum_nonneg W classes HW) as Hs.
  intros [->|H].
  - Lqa.lra.
  - specialize (IH H). specialize (HW d). Lqa.lra.
Qed.

Lemma true_sum_member (c : Z) (y : list Z) : In c y -> (0 < true_sum c y)%nat.
Proof.
  unfold true_sum. induction y as [|t y IH]; simpl; [contradiction|].
  intros [->|H].
  - rewrite Z.eqb_refl. simpl. lia.
  - specialize (IH H). destruct (t =? c)%Z; simpl; lia.
Qed.

(** A non-empty column scored against itself has the score 1. *)
Lemma fbeta_score_same (y : list Z) (beta : Q) :
  y <> [] -> 0 <= beta ->
  exists s, fbeta_score y y beta = Return s /\ s == 1.
Proof.
  intros Hne Hbeta. unfold fbeta_score.
  rewrite Nat.eqb_refl. cbn [negb].
  rewrite (proj2 (Qltb_false beta 0) Hbeta). cbv zeta.
  set (classes := unique_labels y y).
  set (W := fun c : Z => Qnat (true_sum c y)).
  set (F := fun c : Z => class_fbeta beta c y y).
  assert (HW : forall c, 0 <= W c) by (intro; apply Qnat_nonneg).
  assert (Hpos : 0 < Qsum (map W classes)).
  { destruct y as [|y0 y']; [contradiction|].
    assert (Hin : In y0 (y0 :: y')) by (left; reflexivity).
    apply Qlt_le_trans with (W y0).
    - apply Qnat_pos, true_sum_member, Hin.
    - apply Qsum_member; [exact HW|].
      apply unique_labels_complete, in_or_app. left. exact Hin. }
  destruct (Qeq_bool (Qsum (map W classes)) 0) eqn:E.
  - apply Qeq_bool_eq in E. rewrite E in Hpos. discriminate.
  - eexists. split; [reflexivity|]. unfold average.
    rewrite (weighted_sum_same F W classes).
    + field. intros E0. rewrite E0 in Hpos. discriminate.
    + intros c. unfold F, W.
      destruct (Nat.eq_dec (true_sum c y) 0) as [->|Hc].
      * unfold Qnat. simpl. ring.
      * rewrite class_fbeta_same by lia. ring.
Qed.

End PerfectFacts.

(** When every column score equals 1 nothing is left to aggregate. *)
Lemma all_perfect_nan (y_true y_pred : labels) (beta : Q) :
  (forall k, (k < n_cols (as_values y_true))%nat ->
     exists s, column_score (as_values y_true) (as_values y_pred) beta k = Return s
               /\ s == 1) ->
  multioutput_fscore y_true y_pred beta = Return NaN.
Proof.
  intros Hall.
  destruct (for_append_returns
              (column_score (as_values y_true) (as_values y_pred) beta)
              (fun s => s == 1) (seq 0 (n_cols (as_values y_true))))
    as (sl & Hfor & _ & Hone).
  { intros k Hk. apply in_seq in Hk. apply Hall. lia. }
  rewrite (multioutput_fscore_unfold _ _ _ Hfor). unfold aggregate. cbv zeta.
  rewrite filter_below_one.
  - rewrite (drop_perfect_all_one Hone). reflexivity.
  - eapply Forall_impl; [|exact Hone]. intros s Hs. rewrite Hs.
    split; [discriminate | apply Qle_refl].
Qed.

(** X6. A prediction equal to the truth is scored [nan]: on a well-shaped
    matrix with at least one row every column scores 1 against itself, the
    filter removes every score, and the mean of nothing is returned. *)
Theorem multioutput_fscore_perfect_prediction (y : ndarray) (beta : Q) :
  well_shaped y = true ->
  (0 < n_rows y)%nat ->
  0 <= beta ->
  multioutput_fscore (Array y) (Array y) beta = Return NaN.
Proof.
  intros Hy Hrows Hbeta. apply all_perfect_nan. simpl as_values.
  intros k Hk. unfold column_score.
  rewrite (column_in_range y Hk). simpl.
  apply PerfectFacts.fbeta_score_same; [|exact Hbeta].
  intros E. apply (f_equal (@length Z)) in E.
  rewrite column_cells_length, (well_shaped_rows y Hy) in E. simpl in E. lia.
Qed.

Lemma multioutput_fscore_perfect_prediction_witness :
  well_shaped toy_y_pred = true
  /\ (0 < n_rows toy_y_pred)%nat
  /\ multioutput_fscore (Array toy_y_pred) (Array toy_y_pred) 1 = Return NaN.
Proof.
  split; [reflexivity|]. split; [simpl; lia|].
  apply (@multioutput_fscore_perfect_prediction toy_y_pred 1);
    [reflexivity | simpl; lia | discriminate].
Defined.

(** ** One label scored zero *)

Lemma score_of_column_in_list (f : nat -> outcome Q) (n k : nat) (s : Q)
    (score_list : list Q) :
  Forall2 (fun k s => f k = Return s) (seq 0 n) score_list ->
  (k < n)%nat -> f k = Return s -> In s score_list.
Proof.
  intros H2 Hk Hks.
  assert (Hin : In k (seq 0 n)) by (apply in_seq; lia).
  induction H2 as [|x y xs ys Hxy _ IH]; [contradiction|].
  destruct Hin as [->|Hin].
  - left. congruence.
  - right. apply IH. exact Hin.
Qed.

Lemma drop_perfect_keeps (s : Q) (score_list : list Q) :
  In s score_list -> ~ s == 1 -> In s (drop_perfect score_list).
Proof.
  intros Hin Hne. unfold drop_perfect. apply filter_In. split; [exact Hin|].
  destruct (Qeq_bool s 1) eqn:E; [|reflexivity].
  apply Qeq_bool_eq in E. contradiction.
Qed.

Lemma gmean_with_zero (a : list Q) (s : Q) :
  Forall (fun x => 0 <= x) a -> In s a -> s == 0 -> Scipy.gmean a = Num 0%R.
Proof.
  intros Hpos Hin Hs. destruct a as [|x0 a0]; [contradiction|].
  set (a := x0 :: a0) in *. unfold Scipy.gmean. fold a.
  rewrite (GmeanFacts.no_negative Hpos).
  assert (E : existsb (fun x => Qeq_bool x 0) a = true).
  { apply existsb_exists. exists s. split; [exact Hin|].
    apply Qeq_eq_bool. exact Hs. }
  rewrite E. reflexivity.
Qed.

(** X7. One label with the score 0 makes the aggregate 0, whatever the
    other labels score. *)
Theorem multioutput_fscore_zero_label
    (y_true y_pred : labels) (beta : Q) :
  well_shaped (as_values y_true) = true ->
  well_shaped (as_values y_pred) = true ->
  same_shape (as_values y_true) (as_values y_pred) ->
  0 <= beta ->
  (exists k s, (k < n_cols (as_values y_true))%nat
     /\ column_score (as_values y_true) (as_values y_pred) beta k = Return s
     /\ s == 0) ->
  multioutput_fscore y_true y_pred beta = Return (Num 0%R).
Proof.
  intros Ht Hp Hs Hb (k & s & Hk & Hks & Hzero).
  destruct (score_list_returns Ht Hp Hs Hb) as (sl & Hfor & H2 & Hrange).
  rewrite (multioutput_fscore_unfold _ _ _ Hfor). unfold aggregate. cbv zeta.
  rewrite (filter_below_one Hrange). f_equal.
  apply gmean_with_zero with s.
  - pose proof (drop_perfect_range Hrange) as Hr.
    eapply Forall_impl; [|exact Hr]. intros x [H _]. exact H.
  - apply drop_perfect_keeps.
    + apply (score_of_column_in_list _ H2 Hk Hks).
    + rewrite Hzero. discriminate.
  - exact Hzero.
Qed.

Lemma multioutput_fscore_zero_label_witness :
  multioutput_fscore
    (Array {| n_rows := 2; n_cols := 2; cells := [[1; 1]; [1; 0]]%Z |})
    (Array {| n_rows := 2; n_cols := 2; cells := [[0; 1]; [0; 1]]%Z |}) 1
  = Return (Num 0%R).
Proof.
  apply (@multioutput_fscore_zero_label
           (Array {| n_rows := 2; n_cols := 2; cells := [[1; 1]; [1; 0]]%Z |})
           (Array {| n_rows := 2; n_cols := 2; cells := [[0; 1]; [0; 1]]%Z |}) 1).
  - reflexivity.
  - reflexivity.
  - split; reflexivity.
  - discriminate.
  - exists 0%nat. eexists. split; [simpl; lia|]. split.
    + vm_compute. reflexivity.
    + reflexivity.
Defined.

(** ** The order of the labels *)

Module OrderFacts.
Import Scipy.

Lemma filter_permutation {A : Type} (f : A -> bool) (l l' : list A) :
  Permutation l l' -> Permutation (filter f l) (filter f l').
Proof.
  induction 1 as [|x l l' _ IH|x y l|l l' l'' _ IH1 _ IH2]; simpl.
  - constructor.
  - destruct (f x); [constructor|]; exact IH.
  - destruct (f x), (f y); try apply Permutation_refl. apply perm_swap.
  - eapply Permutation_trans; eassumption.
Qed.

Lemma existsb_permutation {A : Type} (f : A -> bool) (l l' : list A) :
  Permutation l l' -> existsb f l = existsb f l'.
Proof.
  induction 1 as [|x l l' _ IH|x y l|l l' l'' _ IH1 _ IH2]; simpl.
  - reflexivity.
  - rewrite IH. reflexivity.
  - destruct (f x), (f y); reflexivity.
  - congruence.
Qed.

Lemma Rsum_permutation (l l' : list R) :
  Permutation l l' -> Rsum l = Rsum l'.
Proof.
  induction 1 as [|x l l' _ IH|x y l|l l' l'' _ IH1 _ IH2]; simpl.
  - reflexivity.
  - rewrite IH. reflexivity.
  - Lra.lra.
  - congruence.
Qed.

Lemma gmean_permutation (a a' : list Q) :
  Permutation a a' -> gmean a = gmean a'.
Proof.
  intros H. destruct a as [|x a0].
  - apply Permutation_nil in H. subst. reflexivity.
  - destruct a' as [|x' a0'].
    + apply Permutation_sym, Permutation_nil in H. discriminate.
    + unfold gmean.
      rewrite (existsb_permutation (fun x => Sklearn.Qltb x 0) H).
      rewrite (existsb_permutation (fun x => Qeq_bool x 0) H).
      rewrite (Rsum_permutation (Permutation_map (fun x => ln (Q2R x)) H)).
      rewrite (Permutation_length H). reflexivity.
Qed.

End OrderFacts.

(** X8. The aggregate does not depend on the order of the per-label
    scores: listing the categories in another order gives the same value. *)
Theorem aggregate_order_irrelevant (score_list score_list' : list Q) :
  Permutation score_list score_list' ->
  aggregate score_list = aggregate score_list'.
Proof.
  intros H. unfold aggregate. cbv zeta.
  apply OrderFacts.gmean_permutation, OrderFacts.filter_permutation, H.
Qed.

Lemma aggregate_order_irrelevant_witness :
  Permutation [8 # 10; 1; 6 # 10] [1; 6 # 10; 8 # 10]
  /\ aggregate [8 # 10; 1; 6 # 10] = aggregate [1; 6 # 10; 8 # 10].
Proof.
  assert (P : Permutation [8 # 10; 1; 6 # 10] [1; 6 # 10; 8 # 10]).
  { apply Permutation_trans with [1; 8 # 10; 6 # 10].
    - apply perm_swap.
    - apply perm_skip, perm_swap. }
  split; [exact P|].
  apply (@aggregate_order_irrelevant [8 # 10; 1; 6 # 10] [1; 6 # 10; 8 # 10] P).
Defined.

(** ** A prediction matrix with too few columns *)

Lemma column_score_returns_in_both (y_true y_pred : ndarray) (beta : Q) (k : nat) :
  well_shaped y_true = true -> well_shaped y_pred = true ->
  n_rows y_true = n_rows y_pred -> 0 <= beta ->
  (k < n_cols y_true)%nat -> (k < n_cols y_pred)%nat ->
  exists s, column_score y_true y_pred beta k = Return s /\ 0 <= s <= 1.
Proof.
  intros Ht Hp Hrows Hb Hk Hk'. unfold column_score.
  rewrite (column_in_range y_true Hk), (column_in_range y_pred Hk'). simpl.
  apply FbetaFacts.fbeta_score_returns; [|exact Hb].
  rewrite !column_cells_length.
  rewrite (well_shaped_rows y_true Ht), (well_shaped_rows y_pred Hp). exact Hrows.
Qed.

(** X9. When the prediction matrix has fewer columns than the truth, the
    scorer raises IndexError (at the first missing column), even though the
    columns present could be scored. *)
Theorem multioutput_fscore_too_few_columns
    (y_true y_pred : labels) (beta : Q) :
  well_shaped (as_values y_true) = true ->
  well_shaped (as_values y_pred) = true ->
  n_rows (as_values y_true) = n_rows (as_values y_pred) ->
  0 <= beta ->
  (n_cols (as_values y_pred) < n_cols (as_values y_true))%nat ->
  multioutput_fscore y_true y_pred beta = Raise IndexError.
Proof.
  intros Ht Hp Hrows Hb Hcols. unfold multioutput_fscore. cbv zeta.
  set (yt := as_values y_true) in *. set (yp := as_values y_pred) in *.
  assert (E : for_append (column_score yt yp beta) (seq 0 (n_cols yt))
              = Raise IndexError).
  { apply for_append_Raise_inv.
    destruct (@Forall2_pointwise _ _ (column_score yt yp beta) (fun _ => True)
                (seq 0 (n_cols yp))) as (ys & H2 & _).
    { intros k Hk. apply in_seq in Hk.
      destruct (@column_score_returns_in_both yt yp beta k Ht Hp Hrows Hb)
        as (s & Hs & _); [lia | lia |].
      exists s. split; [exact Hs | exact I]. }
    exists (seq 0 (n_cols yp)), (n_cols yp),
           (seq (S (n_cols yp)) (n_cols yt - S (n_cols yp))), ys.
    split; [|split; [exact H2|]].
    - replace (n_cols yt) with (n_cols yp + S (n_cols yt - S (n_cols yp)))%nat
        at 1 by lia.
      rewrite seq_app. reflexivity.
    - unfold column_score. rewrite (column_in_range yt Hcols). simpl.
      unfold column. rewrite Nat.ltb_irrefl. reflexivity. }
  rewrite E. reflexivity.
Qed.

Lemma multioutput_fscore_too_few_columns_witness :
  multioutput_fscore
    (Array toy_y_pred)
    (Array {| n_rows := 2; n_cols := 1; cells := [[1]; [0]]%Z |}) 1
  = Raise IndexError.
Proof.
  apply (@multioutput_fscore_too_few_columns
           (Array toy_y_pred)
           (Array {| n_rows := 2; n_cols := 1; cells := [[1]; [0]]%Z |}) 1);
    [reflexivity | reflexivity | reflexivity | discriminate | simpl; lia].
Defined.

(** ** The geometric mean against the plain average *)

Module MeanFacts.
Import Scipy.

Lemma ln_below_line (t : R) : (0 < t)%R -> (ln t <= t - 1)%R.
Proof.
  intros Ht. pose proof (exp_ineq1_le (t - 1)) as H.
  replace (1 + (t - 1))%R with t in H by Lra.lra.
  destruct H as [H|H].
  - left. rewrite <- (ln_exp (t - 1)). apply ln_increasing; assumption.
  - right. rewrite H at 1. apply ln_exp.
Qed.

Lemma ln_below_tangent (x A : R) :
  (0 < x)%R -> (0 < A)%R -> (ln x <= ln A + x / A - 1)%R.
Proof.
  intros Hx HA.
  assert (Hq : (0 < x / A)%R) by (apply Rdiv_lt_0_compat; assumption).
  pose proof (ln_below_line Hq) as H.
  replace x with (A * (x / A))%R at 1 by (field; Lra.lra).
  rewrite ln_mult by assumption. Lra.lra.
Qed.

Lemma sum_ln_below (xs : list R) (A : R) :
  (0 < A)%R -> Forall (fun x => 0 < x)%R xs ->
  (Rsum (map ln xs) <= INR (length xs) * ln A + Rsum xs / A - INR (length xs))%R.
Proof.
  intros HA. induction 1 as [|x xs Hx _ IH].
  - simpl. unfold Rdiv. rewrite !Rmult_0_l. Lra.lra.
  - change (Rsum (map ln (x :: xs))) with (ln x + Rsum (map ln xs))%R.
    change (Rsum (x :: xs)) with (x + Rsum xs)%R.
    change (length (x :: xs)) with (S (length xs)). rewrite S_INR.
    pose proof (ln_below_tangent Hx HA) as Hl.
    unfold Rdiv in *. rewrite Rmult_plus_distr_r. Lra.lra.
Qed.

Lemma Rsum_positive (xs : list R) :
  xs <> [] -> Forall (fun x => 0 < x)%R xs -> (0 < Rsum xs)%R.
Proof.
  intros Hne H. induction H as [|x xs Hx Hxs IH]; [contradiction|].
  change (Rsum (x :: xs)) with (x + Rsum xs)%R. destruct xs as [|y ys].
  - change (Rsum []) with 0%R. Lra.lra.
  - assert (0 < Rsum (y :: ys))%R by (apply IH; discriminate).
    Lra.lra.
Qed.

Lemma Rsum_nonnegative (xs : list R) :
  Forall (fun x => 0 <= x)%R xs -> (0 <= Rsum xs)%R.
Proof.
  induction 1 as [|x xs Hx _ IH]; [apply Rle_refl|].
  change (Rsum (x :: xs)) with (x + Rsum xs)%R. Lra.lra.
Qed.

(** The inequality of the arithmetic and geometric means. *)
Lemma gmean_below_mean (a : list Q) :
  a <> [] -> Forall (fun x => 0 <= x) a ->
  exists r, gmean a = Num r /\ (r <= Rmean a)%R.
Proof.
  intros Hne Hpos. destruct a as [|x0 a0]; [contradiction|].
  set (a := x0 :: a0) in *. unfold gmean. fold a.
  assert (Hn : (0 < INR (length a))%R) by (apply lt_0_INR; subst a; simpl; lia).
  rewrite (GmeanFacts.no_negative Hpos).
  destruct (existsb (fun x => Qeq_bool x 0) a) eqn:E.
  - exists 0%R. split; [reflexivity|]. unfold Rmean.
    apply Rmult_le_pos; [|left; apply Rinv_0_lt_compat; exact Hn].
    apply Rsum_nonnegative. apply Forall_forall. intros r Hr.
    apply in_map_iff in Hr. destruct Hr as (q & <- & Hq).
    rewrite <- RMicromega.Q2R_0. apply Qle_Rle.
    rewrite Forall_forall in Hpos. apply Hpos, Hq.
  - pose proof (GmeanFacts.no_zero_positive Hpos E) as Hall.
    eexists. split; [reflexivity|]. unfold Rmean.
    rewrite GmeanFacts.map_ln_Q2R.
    set (xs := map Q2R a) in *.
    assert (Hlen : length xs = length a) by (subst xs; apply length_map).
    rewrite <- Hlen in *.
    assert (HA : (0 < Rsum xs / INR (length xs))%R).
    { apply Rdiv_lt_0_compat; [|exact Hn].
      apply Rsum_positive; [|exact Hall].
      subst xs a. discriminate. }
    pose proof (sum_ln_below HA Hall) as Hb.
    replace (Rsum xs / (Rsum xs / INR (length xs)))%R with (INR (length xs)) in Hb.
    2:{ field. split; [Lra.lra|].
        apply Rgt_not_eq. apply Rsum_positive; [|exact Hall].
        subst xs a. discriminate. }
    assert (Hd : (Rsum (map ln xs) / INR (length xs)
                  <= ln (Rsum xs / INR (length xs)))%R).
    { apply Rmult_le_reg_r with (INR (length xs)); [exact Hn|].
      unfold Rdiv at 1. rewrite Rmult_assoc, Rinv_l by Lra.lra.
      rewrite Rmult_1_r. Lra.lra. }
    rewrite <- (exp_ln (Rsum xs / INR (length xs))) at 1 by exact HA.
    destruct Hd as [Hd|Hd].
    + left. apply exp_increasing. exact Hd.
    + right. rewrite Hd. reflexivity.
Qed.

End MeanFacts.

(** X10. The aggregate under-estimates the plain average: whenever some
    label is imperfect, the returned value is at most the arithmetic mean of
    the imperfect per-label scores. *)
Theorem multioutput_fscore_below_average
    (y_true y_pred : labels) (beta : Q) :
  well_shaped (as_values y_true) = true ->
  well_shaped (as_values y_pred) = true ->
  same_shape (as_values y_true) (as_values y_pred) ->
  0 <= beta ->
  exists score_list,
    Forall2 (fun k s => column_score (as_values y_true) (as_values y_pred) beta k
                        = Return s)
            (seq 0 (n_cols (as_values y_true))) score_list
    /\ (drop_perfect score_list <> [] ->
        exists r, multioutput_fscore y_true y_pred beta = Return (Num r)
                  /\ (r <= Rmean (drop_perfect score_list))%R).
Proof.
  intros Ht Hp Hs Hb.
  destruct (score_list_returns Ht Hp Hs Hb) as (sl & Hfor & H2 & Hrange).
  exists sl. split; [exact H2|]. intros Hne.
  rewrite (multioutput_fscore_unfold _ _ _ Hfor). unfold aggregate. cbv zeta.
  rewrite (filter_below_one Hrange).
  destruct (@MeanFacts.gmean_below_mean (drop_perfect sl) Hne) as (r & Hr & Hle).
  - pose proof (drop_perfect_range Hrange) as Hr.
    eapply Forall_impl; [|exact Hr]. intros x [H _]. exact H.
  - exists r. split; [rewrite Hr; reflexivity | exact Hle].
Qed.

Lemma multioutput_fscore_below_average_witness :
  exists score_list,
    Forall2 (fun k s => column_score (values toy_y_test) toy_y_pred 1 k = Return s)
            (seq 0 2) score_list
    /\ (drop_perfect score_list <> [] ->
        exists r, multioutput_fscore (Frame toy_y_test) (Array toy_y_pred) 1
                  = Return (Num r)
                  /\ (r <= Rmean (drop_perfect score_list))%R).
Proof.
  destruct toy_scorer_hypotheses as (H1 & H2 & H3 & H4).
  apply (@multioutput_fscore_below_average (Frame toy_y_test) (Array toy_y_pred) 1
           H1 H2 H3 H4).
Defined.

(** ** The range of the overall accuracy *)

Module RangeFacts.
Import Sklearn AccuracyFacts.

Lemma count_true_le_length (l : list bool) : (count_true l <= length l)%nat.
Proof.
  unfold count_true. apply filter_length_le.
Qed.

Lemma mean_bool_range (l : list bool) (q : Q) :
  mean_bool l = Some q -> 0 <= q <= 1.
Proof.
  destruct l as [|b l]; [discriminate|].
  rewrite mean_bool_cons. intros H. injection H as <-.
  assert (Hpos : 0 < Qnat (length (b :: l))) by (apply SklearnFacts.Qnat_pos; simpl; lia).
  split.
  - apply Qle_shift_div_l; [exact Hpos|]. rewrite Qmult_0_l.
    apply SklearnFacts.Qnat_nonneg.
  - apply Qle_shift_div_r; [exact Hpos|]. rewrite Qmult_1_l.
    apply SklearnFacts.Qnat_le, count_true_le_length.
Qed.

Lemma count_true_all (l : list bool) :
  Forall (fun b => b = true) l -> count_true l = length l.
Proof.
  induction 1 as [|b l -> _ IH]; [reflexivity|].
  rewrite count_true_cons, IH. reflexivity.
Qed.

Lemma combine_same {A : Type} (l : list A) (p : A * A) :
  In p (combine l l) -> fst p = snd p.
Proof.
  induction l as [|x l IH]; simpl; [contradiction|].
  intros [<-|H]; [reflexivity | apply IH, H].
Qed.

Lemma cell_matches_same (y : ndarray) :
  Forall (fun b => b = true) (cell_matches y y).
Proof.
  unfold cell_matches. apply Forall_forall. intros b Hb.
  apply in_flat_map in Hb. destruct Hb as (rows & Hrows & Hb).
  apply in_map_iff in Hb. destruct Hb as (k & <- & _).
  rewrite (combine_same _ _ Hrows). apply Z.eqb_refl.
Qed.

Lemma cell_matches_length (y_pred y_test : ndarray) :
  length (cell_matches y_pred y_test)
  = (length (combine (cells y_pred) (cells y_test)) * n_cols y_test)%nat.
Proof.
  unfold cell_matches.
  rewrite (flat_map_length_const
             (fun rows k => (nth k (fst rows) 0 =? nth k (snd rows) 0)%Z)).
  rewrite length_seq. reflexivity.
Qed.

(** The code's value against the mean over the cells, for arrays of one
    declared shape. *)
Lemma overall_accuracy_cells (y_pred : ndarray) (y_test : DataFrame) :
  same_shape y_pred (values y_test) ->
  exists accuracy,
    overall_accuracy y_pred y_test = Return accuracy
    /\ same_float accuracy (mean_over_cells y_pred (values y_test)).
Proof.
  intros [Hrows Hcols]. unfold overall_accuracy. cbv zeta.
  rewrite Hrows, Hcols, !Nat.eqb_refl. cbn [andb].
  eexists. split; [reflexivity|].
  unfold mean_over_cells, cell_matches.
  rewrite (map_ext _ (fun k => mean_bool
             (map (fun rows => (nth k (fst rows) 0 =? nth k (snd rows) 0)%Z)
                  (combine (cells y_pred) (cells (values y_test)))))).
  2:{ intros k. rewrite combine_column_cells. reflexivity. }
  apply (mean_of_column_means
           (fun rows k => (nth k (fst rows) 0 =? nth k (snd rows) 0)%Z)).
Qed.

Lemma overall_accuracy_shape (y_pred : ndarray) (y_test : DataFrame)
    (accuracy : option Q) :
  overall_accuracy y_pred y_test = Return accuracy ->
  same_shape y_pred (values y_test).
Proof.
  unfold overall_accuracy. cbv zeta.
  destruct (Nat.eqb_spec (n_rows y_pred) (n_rows (values y_test))) as [H1|_];
    [|discriminate].
  destruct (Nat.eqb_spec (n_cols y_pred) (n_cols (values y_test))) as [H2|_];
    [|discriminate].
  intros _. split; assumption.
Qed.

End RangeFacts.

(** X11. Whenever the overall accuracy is a number it lies between 0
    and 1. *)
Theorem overall_accuracy_range (y_pred : ndarray) (y_test : DataFrame) (accuracy : Q) :
  overall_accuracy y_pred y_test = Return (Some accuracy) ->
  0 <= accuracy <= 1.
Proof.
  intros H.
  destruct (@RangeFacts.overall_accuracy_cells y_pred y_test
              (@RangeFacts.overall_accuracy_shape y_pred y_test _ H))
    as (a & Ha & Hsame).
  rewrite H in Ha. injection Ha as <-.
  destruct (mean_over_cells y_pred (values y_test)) as [q|] eqn:E;
    simpl in Hsame; [|contradiction].
  rewrite Hsame. apply (@RangeFacts.mean_bool_range _ q E).
Qed.

Lemma overall_accuracy_range_witness :
  exists accuracy,
    overall_accuracy toy_y_pred toy_y_test = Return (Some accuracy)
    /\ 0 <= accuracy <= 1.
Proof.
  eexists. split; [reflexivity|].
  apply (@overall_accuracy_range toy_y_pred toy_y_test). reflexivity.
Defined.

(** X12. A prediction equal to the truth has the overall accuracy 1, on a
    well-shaped matrix with at least one row and one column. *)
Theorem overall_accuracy_perfect_prediction (y_test : DataFrame) :
  well_shaped (values y_test) = true ->
  (0 < n_rows (values y_test))%nat ->
  (0 < n_cols (values y_test))%nat ->
  exists accuracy,
    overall_accuracy (values y_test) y_test = Return (Some accuracy)
    /\ accuracy == 1.
Proof.
  intros Hy Hrows Hcols.
  destruct (@RangeFacts.overall_accuracy_cells (values y_test) y_test)
    as (a & Ha & Hsame); [split; reflexivity|].
  unfold mean_over_cells in Hsame.
  pose proof (RangeFacts.cell_matches_length (values y_test) (values y_test)) as Hlen.
  rewrite length_combine, Nat.min_id, (well_shaped_rows _ Hy) in Hlen.
  rewrite AccuracyFacts.mean_bool_nonempty in Hsame by (rewrite Hlen; nia).
  rewrite (RangeFacts.count_true_all (RangeFacts.cell_matches_same (values y_test)))
    in Hsame.
  destruct a as [q|]; simpl in Hsame; [|contradiction].
  exists q. split; [exact Ha|]. rewrite Hsame.
  field. apply AccuracyFacts.Qnat_nonzero. rewrite Hlen. nia.
Qed.

Lemma overall_accuracy_perfect_prediction_witness :
  exists accuracy,
    overall_accuracy (values toy_y_test) toy_y_test = Return (Some accuracy)
    /\ accuracy == 1.
Proof.
  apply (@overall_accuracy_perfect_prediction toy_y_test);
    [reflexivity | simpl; lia | simpl; lia].
Defined.

(** ** What a computation appends to the trace *)

Lemma emits_ret {A : Type} (P : event -> Prop) (a : A) : emits P (ret a).
Proof.
  intros tr. exists []. split; [symmetry; apply app_nil_r | constructor].
Qed.

Lemma emits_lift {A : Type} (P : event -> Prop) (m : outcome A) : emits P (lift m).
Proof.
  intros tr. exists []. split; [symmetry; apply app_nil_r | constructor].
Qed.

Lemma emits_emit (P : event -> Prop) (e : event) : P e -> emits P (emit e).
Proof.
  intros H tr. exists [e]. split; [reflexivity|]. constructor; [exact H | constructor].
Qed.

Lemma emits_bind {A B : Type} (P : event -> Prop) (m : io A) (k : A -> io B) :
  emits P m -> (forall a, emits P (k a)) -> emits P (io_bind m k).
Proof.
  intros Hm Hk tr. unfold io_bind.
  destruct (Hm tr) as (n1 & E1 & P1).
  destruct (m tr) as [[a|e] tr1]; simpl in E1; subst tr1.
  - destruct (Hk a (tr ++ n1)) as (n2 & E2 & P2).
    exists (n1 ++ n2). split.
    + rewrite E2. symmetry. apply app_assoc.
    + apply Forall_app. split; assumption.
  - exists n1. split; [reflexivity | exact P1].
Qed.

Lemma emits_for_in {A : Type} (P : event -> Prop) (xs : list A)
    (body : A -> io unit) :
  (forall x, emits P (body x)) -> emits P (for_in xs body).
Proof.
  intros H. induction xs as [|x xs IH]; simpl.
  - apply emits_ret.
  - apply emits_bind; [apply H | intros _; exact IH].
Qed.

Lemma evaluation_event_stdout (args : list printed) :
  evaluation_event (Stdout args).
Proof. right. exists args. reflexivity. Qed.

Lemma emits_print (args : list printed) : emits evaluation_event (print args).
Proof. apply emits_emit, evaluation_event_stdout. Qed.

Lemma evaluate_model_emits
    (world : Collaborators) (model : estimator) (X_test : list string)
    (y_test : DataFrame) (category_names : list string) :
  emits evaluation_event (evaluate_model model X_test y_test category_names).
Proof.
  unfold evaluate_model.
  apply emits_bind; [apply emits_emit; left; reflexivity | intros _].
  apply emits_bind; [apply emits_lift | intros y_pred].
  apply emits_bind.
  - apply emits_for_in. intros i.
    apply emits_bind; [apply emits_print | intros _].
    apply emits_bind; [apply emits_lift | intros yt].
    apply emits_bind; [apply emits_lift | intros yp].
    apply emits_print.
  - intros _.
    apply emits_bind; [apply emits_lift | intros f1].
    apply emits_bind; [apply emits_lift | intros acc].
    apply emits_bind; [apply emits_print | intros _].
    apply emits_print.
Qed.

(** X13. Whether it returns or raises, [evaluate_model] only asks the model
    for predictions and prints: it never reads the database, fits a model or
    writes a file. *)
Theorem evaluate_model_only_predicts_and_prints
    (world : Collaborators) (model : estimator) (X_test : list string)
    (y_test : DataFrame) (category_names : list string) (tr : list event) :
  exists new,
    snd (evaluate_model model X_test y_test category_names tr) = tr ++ new
    /\ Forall (fun e => e = Predict \/ exists args, e = Stdout args) new.
Proof.
  apply (@evaluate_model_emits world model X_test y_test category_names tr).
Qed.

(** ** More category names than label columns *)

Lemma for_in_app {A : Type} (xs ys : list A) (body : A -> io unit)
    (tr : list event) :
  for_in (xs ++ ys) body tr = io_bind (for_in xs body) (fun _ => for_in ys body) tr.
Proof.
  revert tr. induction xs as [|x xs IH]; intros tr; simpl.
  - reflexivity.
  - unfold io_bind in *. destruct (body x tr) as [[[]|e] tr1].
    + apply IH.
    + reflexivity.
Qed.

Lemma evaluate_model_surplus_names_trace
    (world : Collaborators) (model : estimator) (X_test : list string)
    (y_test : DataFrame) (category_names : list string) (y_pred : ndarray)
    (tr : list event) :
  estimator_predict model X_test = Return y_pred ->
  same_shape (values y_test) y_pred ->
  (n_cols (values y_test) < length category_names)%nat ->
  evaluate_model model X_test y_test category_names tr
  = (Raise IndexError,
     tr ++ [Predict]
        ++ flat_map (category_output y_pred y_test category_names)
                    (seq 0 (n_cols (values y_test)))
        ++ [Stdout [Text separator]]).
Proof.
  intros Hpred [Hrows Hcols] Hnames.
  unfold evaluate_model.
  rewrite io_bind_emit.
  rewrite (io_bind_lift _ _ Hpred).
  unfold io_bind at 1.
  set (K := n_cols (values y_test)) in *.
  replace (length category_names) with (K + S (length category_names - S K))%nat
    by lia.
  rewrite seq_app. cbn [seq Nat.add]. rewrite for_in_app.
  unfold io_bind at 1.
  rewrite (for_in_trace _ _ (category_output y_pred y_test category_names)).
  - cbn [for_in]. unfold io_bind at 1. rewrite io_bind_print.
    unfold io_bind at 1. unfold lift at 1. unfold column at 1.
    fold K. rewrite Nat.ltb_irrefl. rewrite <- !app_assoc. reflexivity.
  - intros i tr' Hi. apply in_seq in Hi.
    rewrite io_bind_print.
    rewrite (io_bind_lift _ _ (column_in_range (values y_test) (k := i) ltac:(fold K; lia))).
    rewrite (io_bind_lift _ _ (column_in_range y_pred (k := i) ltac:(rewrite <- Hcols; fold K; lia))).
    unfold print, emit, category_output. rewrite <- app_assoc. reflexivity.
Qed.

(** X14. With more category names than label columns, [evaluate_model]
    prints the reports of the categories that have a column and one more
    separator, then raises IndexError; the accuracy and the aggregate score
    are never printed. *)
Theorem evaluate_model_too_many_names
    (world : Collaborators) (model : estimator) (X_test : list string)
    (y_test : DataFrame) (category_names : list string) (y_pred : ndarray)
    (tr : list event) :
  estimator_predict model X_test = Return y_pred ->
  same_shape (values y_test) y_pred ->
  (n_cols (values y_test) < length category_names)%nat ->
  evaluate_model model X_test y_test category_names tr
  = (Raise IndexError,
     tr ++ [Predict]
        ++ flat_map (category_output y_pred y_test category_names)
                    (seq 0 (n_cols (values y_test)))
        ++ [Stdout [Text separator]]).
Proof.
  apply evaluate_model_surplus_names_trace.
Qed.

Lemma evaluate_model_too_many_names_witness :
  evaluate_model (world := toy_world) tt ["water"]%string toy_y_test
                 ["related"; "request"; "offer"]%string []
  = (Raise IndexError,
     [] ++ [Predict]
        ++ flat_map (category_output (world := toy_world) toy_y_pred toy_y_test
                                     ["related"; "request"; "offer"]%string)
                    (seq 0 (n_cols (values toy_y_test)))
        ++ [Stdout [Text separator]]).
Proof.
  apply (@evaluate_model_too_many_names toy_world tt ["water"]%string toy_y_test
           ["related"; "request"; "offer"]%string toy_y_pred []);
    [reflexivity | split; reflexivity | simpl; lia].
Defined.

(** ** The whole run *)

Lemma pickle_is_no_evaluation_event (new : list event) (p : string) :
  Forall evaluation_event new -> ~ In (PickleDump p) new.
Proof.
  intros H Hin. rewrite Forall_forall in H.
  destruct (H _ Hin) as [E|(args & E)]; discriminate.
Qed.

Ltac run_main :=
  cbv beta iota zeta delta
    [main io_bind lift ret emit print load_data build_model save_model
     unpack2 tl length Nat.eqb fst snd].


Lemma main_complete_run_trace
    (world : Collaborators) (script database_filepath model_filepath : string)
    (X X_train X_test : list string) (y y_train y_test : DataFrame)
    (model : estimator) (y_pred : ndarray) (tr : list event) :
  read_sql_table database_filepath = Return (X, y) ->
  split X y = (X_train, X_test, y_train, y_test) ->
  estimator_fit grid_search X_train y_train = Return model ->
  estimator_predict model X_test = Return y_pred ->
  well_shaped (values y_test) = true ->
  well_shaped y_pred = true ->
  same_shape (values y_test) y_pred ->
  (length (columns y) <= n_cols (values y_test))%nat ->
  exists multioutput_f1 accuracy,
    multioutput_fscore (Frame y_test) (Array y_pred) 1 = Return multioutput_f1
    /\ overall_accuracy y_pred y_test = Return accuracy
    /\ main [script; database_filepath; model_filepath] tr
       = (pickle_dump model model_filepath,
          tr ++ [Stdout [Text ("Loading data..." ++ Str.nl ++ "    DATABASE: "
                               ++ database_filepath)];
                 ReadDatabase database_filepath;
                 TrainTestSplit;
                 Stdout [Text "Building model..."];
                 BuildModel;
                 Stdout [Text "Training model..."];
                 Fit;
                 Stdout [Text "Evaluating model..."];
                 Predict]
             ++ flat_map (category_output y_pred y_test (columns y))
                         (seq 0 (length (columns y)))
             ++ [Stdout [Percent2f ("Average overall accuracy:     {0:.2f}%" ++ Str.nl)
                                   (times100 (npfloat_of accuracy))];
                 Stdout [Percent2f ("F1 score (custom definition): {0:.2f}%" ++ Str.nl)
                                   (times100 multioutput_f1)];
                 Stdout [Text ("Saving model..." ++ Str.nl ++ "    MODEL: "
                               ++ model_filepath)];
                 PickleDump model_filepath]
             ++ match pickle_dump model model_filepath with
                | Return _ => [Stdout [Text "Trained model saved!"]]
                | Raise _ => []
                end).
Proof.
  intros Hread Hsplit Hfit Hpred Ht Hp Hs Hn.
  run_main. rewrite Hread. cbv beta iota. rewrite Hsplit. cbv beta iota.
  rewrite Hfit. cbv beta iota.
  match goal with
  | |- context [@evaluate_model ?w ?m ?Xt ?yt ?names ?t] =>
      destruct (@evaluate_model_trace w m Xt yt names y_pred Hpred Ht Hp Hs Hn t)
        as (f1 & acc & Hf1 & Hacc & Heval)
  end.
  exists f1, acc. split; [exact Hf1|]. split; [exact Hacc|].
  rewrite Heval. cbv beta iota.
  destruct (pickle_dump model model_filepath) as [[]|e];
    rewrite <- !app_assoc; reflexivity.
Qed.

(** X16. A complete run: when the database is read, the model is fitted
    and the predictions have the shape of the test labels, [main] announces
    and performs the steps in the order load, split, build, fit, evaluate,
    save.  When the dump to the second path succeeds it prints the closing
    line and returns; when the dump raises, [main] raises that exception and
    the closing line is not printed. *)
Theorem main_complete_run
    (world : Collaborators) (script database_filepath model_filepath : string)
    (X X_train X_test : list string) (y y_train y_test : DataFrame)
    (model : estimator) (y_pred : ndarray) (tr : list event) :
  read_sql_table database_filepath = Return (X, y) ->
  split X y = (X_train, X_test, y_train, y_test) ->
  estimator_fit grid_search X_train y_train = Return model ->
  estimator_predict model X_test = Return y_pred ->
  well_shaped (values y_test) = true ->
  well_shaped y_pred = true ->
  same_shape (values y_test) y_pred ->
  (length (columns y) <= n_cols (values y_test))%nat ->
  exists multioutput_f1 accuracy,
    multioutput_fscore (Frame y_test) (Array y_pred) 1 = Return multioutput_f1
    /\ overall_accuracy y_pred y_test = Return accuracy
    /\ main [script; database_filepath; model_filepath] tr
       = (pickle_dump model model_filepath,
          tr ++ [Stdout [Text ("Loading data..." ++ Str.nl ++ "    DATABASE: "
                               ++ database_filepath)];
                 ReadDatabase database_filepath;
                 TrainTestSplit;
                 Stdout [Text "Building model..."];
                 BuildModel;
                 Stdout [Text "Training model..."];
                 Fit;
                 Stdout [Text "Evaluating model..."];
                 Predict]
             ++ flat_map (category_output y_pred y_test (columns y))
                         (seq 0 (length (columns y)))
             ++ [Stdout [Percent2f ("Average overall accuracy:     {0:.2f}%" ++ Str.nl)
                                   (times100 (npfloat_of accuracy))];
                 Stdout [Percent2f ("F1 score (custom definition): {0:.2f}%" ++ Str.nl)
                                   (times100 multioutput_f1)];
                 Stdout [Text ("Saving model..." ++ Str.nl ++ "    MODEL: "
                               ++ model_filepath)];
                 PickleDump model_filepath]
             ++ match pickle_dump model model_filepath with
                | Return _ => [Stdout [Text "Trained model saved!"]]
                | Raise _ => []
                end).
Proof.
  apply main_complete_run_trace.
Qed.

Lemma main_complete_run_witness :
  exists new,
    main (world := toy_world)
         ["train_classifier.py"; "DisasterResponse.db"; "model.p"]%string []
    = (Return tt, new)
    /\ In (PickleDump "model.p") new.
Proof.
  destruct toy_evaluation_hypotheses as (_ & H2 & H3 & H4 & H5).
  destruct (@main_complete_run toy_world "train_classifier.py" "DisasterResponse.db"
              "model.p" ["help"; "water"]%string ["help"; "water"]%string
              ["help"; "water"]%string toy_y_test toy_y_test toy_y_test tt
              toy_y_pred [] eq_refl eq_refl eq_refl eq_refl H2 H3 H4 H5)
    as (f1 & acc & _ & _ & H).
  eexists. split; [exact H|].
  simpl. right. right. right. right. right. right. right. right. right.
  right. right. right. right. right. right. right. left. reflexivity.
Defined.

(** An unwritable model path: the run is complete up to the dump, whose
    exception [main] raises. *)
Example main_unwritable_model_path :
  let world := {|
    estimator := unit;
    read_sql_table := fun _ => Return (["help"; "water"]%string, toy_y_test);
    split := fun X y => (X, X, y, y);
    grid_search := tt;
    estimator_fit := fun m _ _ => Return m;
    estimator_predict := fun _ _ => Return toy_y_pred;
    classification_report := fun _ _ => "report"%string;
    pickle_dump := fun _ _ => Raise (OtherError "PermissionError")
  |} in
  exists new,
    main (world := world)
         ["train_classifier.py"; "DisasterResponse.db"; "/model.p"]%string []
    = (Raise (OtherError "PermissionError"), new)
    /\ In (PickleDump "/model.p") new
    /\ ~ In (Stdout [Text "Trained model saved!"]) new.
Proof.
  intros world.
  destruct toy_evaluation_hypotheses as (_ & H2 & H3 & H4 & H5).
  destruct (@main_complete_run_trace world "train_classifier.py" "DisasterResponse.db"
              "/model.p" ["help"; "water"]%string ["help"; "water"]%string
              ["help"; "water"]%string toy_y_test toy_y_test toy_y_test tt
              toy_y_pred [] eq_refl eq_refl eq_refl eq_refl H2 H3 H4 H5)
    as (f1 & acc & _ & _ & H).
  eexists. split; [exact H|]. split.
  - simpl. right. right. right. right. right. right. right. right. right.
    right. right. right. right. right. right. right. left. reflexivity.
  - simpl. intros Hin.
    repeat (destruct Hin as [Hin|Hin]; [discriminate Hin|]). exact Hin.
Qed.

(** ** The value 1 is never returned *)

Lemma sum_ln_negative (l : list R) :
  l <> [] -> Forall (fun x => 0 < x < 1)%R l -> (Scipy.Rsum (map ln l) < 0)%R.
Proof.
  intros Hne H. destruct H as [|x l [Hx0 Hx1] Hl]; [contradiction|].
  change (Scipy.Rsum (map ln (x :: l))) with (ln x + Scipy.Rsum (map ln l))%R.
  pose proof (GmeanFacts.sum_ln_nonpos Hl) as Hs.
  assert (ln x < 0)%R by (rewrite <- ln_1; apply ln_increasing; assumption).
  Lra.lra.
Qed.

Lemma exp_mean_ln_below_one (a : list Q) :
  a <> [] -> Forall (fun x => 0 < x < 1)%R (map Q2R a) ->
  (exp (Scipy.Rsum (map (fun x => ln (Q2R x)) a) / INR (length a)) < 1)%R.
Proof.
  intros Hne Hall. rewrite GmeanFacts.map_ln_Q2R.
  assert (Hs : (Scipy.Rsum (map ln (map Q2R a)) < 0)%R).
  { apply sum_ln_negative; [|exact Hall].
    destruct a; [contradiction | discriminate]. }
  assert (Hn : (0 < / INR (length a))%R).
  { apply Rinv_0_lt_compat, lt_0_INR. destruct a; [contradiction | simpl; lia]. }
  assert (Hd : (Scipy.Rsum (map ln (map Q2R a)) * / INR (length a)
                < 0 * / INR (length a))%R)
    by (apply Rmult_lt_compat_r; assumption).
  rewrite Rmult_0_l in Hd.
  apply Rlt_le_trans with (exp 0); [|right; apply exp_0].
  apply exp_increasing. exact Hd.
Qed.

Lemma gmean_below_one (a : list Q) (r : R) :
  Forall (fun x => 0 <= x /\ x < 1) a ->
  Scipy.gmean a = Num r -> (0 <= r < 1)%R.
Proof.
  intros Hrange Hr.
  assert (Hne : a <> []) by (intros ->; discriminate Hr).
  assert (Hpos : Forall (fun x => 0 <= x) a).
  { eapply Forall_impl; [|exact Hrange]. intros x [H _]. exact H. }
  destruct (existsb (fun x => Qeq_bool x 0) a) eqn:E.
  - assert (Hz : Scipy.gmean a = Num 0%R).
    { apply existsb_exists in E. destruct E as (s & Hin & Hs).
      apply (gmean_with_zero Hpos Hin). apply Qeq_bool_eq. exact Hs. }
    rewrite Hz in Hr. injection Hr as <-. Lra.lra.
  - pose proof (GmeanFacts.no_zero_positive Hpos E) as Hall.
    assert (Hlt := @exp_mean_ln_below_one a Hne).
    unfold Scipy.gmean in Hr. destruct a as [|x0 a0]; [contradiction|].
    rewrite (GmeanFacts.no_negative Hpos), E in Hr. injection Hr as <-.
    split; [left; apply exp_pos|]. apply Hlt.
    rewrite Forall_forall in *. intros x Hx. split; [apply Hall, Hx|].
    apply in_map_iff in Hx. destruct Hx as (q & <- & Hq).
    rewrite <- RMicromega.Q2R_1. apply Qlt_Rlt. apply (Hrange q Hq).
Qed.

(** X17. The scorer never returns the best score: a number it returns is
    at least 0 and strictly below 1. *)
Theorem multioutput_fscore_below_one
    (y_true y_pred : labels) (beta : Q) (r : R) :
  well_shaped (as_values y_true) = true ->
  well_shaped (as_values y_pred) = true ->
  same_shape (as_values y_true) (as_values y_pred) ->
  0 <= beta ->
  multioutput_fscore y_true y_pred beta = Return (Num r) ->
  (0 <= r < 1)%R.
Proof.
  intros Ht Hp Hs Hb Hr.
  destruct (score_list_returns Ht Hp Hs Hb) as (sl & Hfor & _ & Hrange).
  rewrite (multioutput_fscore_unfold _ _ _ Hfor) in Hr. unfold aggregate in Hr.
  cbv zeta in Hr. rewrite (filter_below_one Hrange) in Hr.
  injection Hr as Hr.
  apply (@gmean_below_one (drop_perfect sl) r); [|exact Hr].
  apply drop_perfect_range. exact Hrange.
Qed.

Lemma multioutput_fscore_below_one_witness :
  multioutput_fscore (Array worked_y_true) (Array worked_y_pred) 1
  = Return (Num (sqrt 0.48))
  /\ (0 <= sqrt 0.48 < 1)%R.
Proof.
  split; [apply worked_example_result|].
  apply (@multioutput_fscore_below_one (Array worked_y_true) (Array worked_y_pred) 1
           (sqrt 0.48));
    [reflexivity | reflexivity | split; reflexivity | discriminate
    | apply worked_example_result].
Defined.

(** ** Surplus prediction columns *)

Lemma for_append_ext_in {A B : Type} (f g : A -> outcome B) (xs : list A) :
  (forall x, In x xs -> f x = g x) -> for_append f xs = for_append g xs.
Proof.
  induction xs as [|x xs IH]; intros H; simpl; [reflexivity|].
  rewrite (H x (or_introl eq_refl)), IH; [reflexivity|].
  intros y Hy. apply H. right. exact Hy.
Qed.

Lemma nth_firstn_below (k n : nat) (r : list Z) :
  (k < n)%nat -> nth k (firstn n r) 0%Z = nth k r 0%Z.
Proof.
  revert k r. induction n as [|n IH]; intros k r Hk; [lia|].
  destruct r as [|z r]; [destruct k; reflexivity|].
  destruct k as [|k]; [reflexivity|]. simpl. apply IH. lia.
Qed.

(** X18. Prediction columns beyond those of the truth are ignored without
    an error: a prediction matrix with surplus columns gets the score of
    its first columns. *)
Theorem multioutput_fscore_surplus_columns
    (y_true y_pred : ndarray) (beta : Q) :
  (n_cols y_true <= n_cols y_pred)%nat ->
  multioutput_fscore (Array y_true) (Array y_pred) beta
  = multioutput_fscore (Array y_true)
                       (Array (first_columns (n_cols y_true) y_pred)) beta.
Proof.
  intros Hcols. unfold multioutput_fscore. cbv zeta. simpl as_values.
  rewrite (@for_append_ext_in _ _
             (column_score y_true y_pred beta)
             (column_score y_true (first_columns (n_cols y_true) y_pred) beta));
    [reflexivity|].
  intros k Hk. apply in_seq in Hk. unfold column_score.
  rewrite (column_in_range y_true (k := k)) by lia. simpl.
  rewrite (column_in_range y_pred (k := k)) by lia.
  rewrite (column_in_range (first_columns (n_cols y_true) y_pred) (k := k))
    by (simpl; lia).
  simpl. f_equal. unfold column_cells, first_columns. simpl.
  rewrite map_map. apply map_ext. intros row.
  symmetry. apply nth_firstn_below. lia.
Qed.

Lemma multioutput_fscore_surplus_columns_witness :
  multioutput_fscore
    (Array {| n_rows := 2; n_cols := 1; cells := [[1]; [0]]%Z |})
    (Array toy_y_pred) 1
  = multioutput_fscore
      (Array {| n_rows := 2; n_cols := 1; cells := [[1]; [0]]%Z |})
      (Array (first_columns 1 toy_y_pred)) 1.
Proof.
  apply (@multioutput_fscore_surplus_columns
           {| n_rows := 2; n_cols := 1; cells := [[1]; [0]]%Z |} toy_y_pred 1).
  simpl. lia.
Defined.

(** ** The library score against the specification's weighted F-beta *)

Lemma list_sum_map_zero_any {A : Type} (l : list A) :
  list_sum (map (fun _ => 0%nat) l) = 0%nat.
Proof.
  induction l as [|x l IH]; simpl; [reflexivity | exact IH].
Qed.

Lemma list_sum_map_add_any {A : Type} (a b : A -> nat) (l : list A) :
  list_sum (map (fun x => a x + b x)%nat l)
  = (list_sum (map a l) + list_sum (map b l))%nat.
Proof.
  induction l as [|x l IH]; simpl; [reflexivity|]. rewrite IH. lia.
Qed.

Module RefinementFacts.
Import Sklearn SklearnFacts FbetaFacts PerfectFacts.

Lemma true_sum_members (c : Z) (y : list Z) : true_sum c y = members c y.
Proof.
  unfold true_sum, members. induction y as [|t y IH]; simpl; [reflexivity|].
  destruct (Z.eqb_spec t c) as [E|E]; destruct (Z.eq_dec t c) as [E'|E'];
    try contradiction; simpl; rewrite IH; reflexivity.
Qed.

Lemma pred_sum_members (c : Z) (y : list Z) : pred_sum c y = members c y.
Proof. apply true_sum_members. Qed.

Lemma tp_sum_hits (c : Z) (y_true y_pred : list Z) :
  tp_sum c y_true y_pred = hits c y_true y_pred.
Proof.
  unfold tp_sum, hits. induction (combine y_true y_pred) as [|[t p] l IH];
    [reflexivity|].
  cbn [filter fst snd].
  destruct (pair_eq_dec (t, p) (c, c)) as [E|E].
  - rewrite (count_occ_cons_eq pair_eq_dec l E).
    injection E as -> ->. rewrite Z.eqb_refl. simpl. rewrite IH. reflexivity.
  - rewrite (count_occ_cons_neq pair_eq_dec l E).
    destruct (Z.eqb_spec t c) as [->|Et]; destruct (Z.eqb_spec p c) as [->|Ep];
      simpl; try exact IH.
    contradiction E. reflexivity.
Qed.

Lemma Qnat_ratio_nonneg (n d : nat) : 0 <= Qnat n / Qnat d.
Proof.
  destruct d as [|d].
  - unfold Qdiv, Qnat. simpl. rewrite Qmult_0_r. apply Qle_refl.
  - apply Qle_shift_div_l; [apply Qnat_pos; lia|].
    rewrite Qmult_0_l. apply Qnat_nonneg.
Qed.

(** The class score of the library model is the class score of the
    specification. *)
Lemma class_fbeta_class_score (beta : Q) (c : Z) (y_true y_pred : list Z) :
  class_fbeta beta c y_true y_pred == class_score beta c y_true y_pred.
Proof.
  unfold class_fbeta, class_score, precision, recall, prf_divide. cbv zeta.
  rewrite tp_sum_hits, pred_sum_members, true_sum_members.
  destruct (members c y_pred =? 0)%nat eqn:Ep; simpl orb.
  - unfold Qdiv. ring.
  - destruct (members c y_true =? 0)%nat eqn:Et.
    + unfold Qdiv. ring.
    + set (P := Qnat (hits c y_true y_pred) / Qnat (members c y_pred)).
      set (R := Qnat (hits c y_true y_pred) / Qnat (members c y_true)).
      destruct (Qeq_bool (beta * beta * P + R) 0) eqn:E; [|reflexivity].
      apply Qeq_bool_eq in E.
      assert (HP : 0 <= P) by apply Qnat_ratio_nonneg.
      assert (HR : 0 <= R) by apply Qnat_ratio_nonneg.
      assert (Hb : 0 <= beta * beta * P).
      { apply Qmult_le_0_compat; [apply square_nonneg | exact HP]. }
      assert (R0 : R == 0) by Lqa.lra.
      rewrite R0. unfold Qdiv. ring.
Qed.

Lemma insert_label_in (c x : Z) (l : list Z) :
  In x (insert_label c l) -> x = c \/ In x l.
Proof.
  induction l as [|d l IH]; simpl.
  - intros [<-|[]]. left. reflexivity.
  - destruct (c <? d)%Z.
    + intros [<-|H]; [left; reflexivity | right; exact H].
    + destruct (c =? d)%Z; [intros H; right; exact H|].
      intros [<-|H]; [right; left; reflexivity|].
      destruct (IH H) as [->|H']; [left; reflexivity | right; right; exact H'].
Qed.

Lemma insert_label_sorted (c : Z) (l : list Z) :
  StronglySorted Z.lt l -> StronglySorted Z.lt (insert_label c l).
Proof.
  induction 1 as [|d l Hl IH Hd]; simpl.
  - constructor; constructor.
  - destruct (Z.ltb_spec c d) as [Hcd|Hcd].
    + constructor; [constructor; assumption|].
      constructor; [exact Hcd|].
      eapply Forall_impl; [|exact Hd]. intros x Hx. lia.
    + destruct (Z.eqb_spec c d) as [->|Hne].
      * constructor; assumption.
      * constructor; [exact IH|].
        apply Forall_forall. intros x Hx.
        destruct (insert_label_in _ _ _ Hx) as [->|Hin]; [lia|].
        rewrite Forall_forall in Hd. apply Hd, Hin.
Qed.

Lemma sorted_NoDup (l : list Z) : StronglySorted Z.lt l -> NoDup l.
Proof.
  induction 1 as [|d l Hl IH Hd]; constructor; [|exact IH].
  intros Hin. rewrite Forall_forall in Hd. specialize (Hd d Hin). lia.
Qed.

Lemma unique_labels_sorted (y_true y_pred : list Z) :
  StronglySorted Z.lt (unique_labels y_true y_pred).
Proof.
  unfold unique_labels. induction (y_true ++ y_pred) as [|c l IH]; simpl.
  - constructor.
  - apply insert_label_sorted, IH.
Qed.

Lemma unique_labels_sound (y_true y_pred : list Z) (x : Z) :
  In x (unique_labels y_true y_pred) -> In x (y_true ++ y_pred).
Proof.
  unfold unique_labels. induction (y_true ++ y_pred) as [|c l IH]; simpl.
  - intros [].
  - intros H. destruct (insert_label_in _ _ _ H) as [->|H'];
      [left; reflexivity | right; apply IH, H'].
Qed.

(** The sorted labels of the library are the observed classes, in another
    order. *)
Lemma unique_labels_observed (y_true y_pred : list Z) :
  Permutation (unique_labels y_true y_pred) (observed_classes y_true y_pred).
Proof.
  apply NoDup_Permutation.
  - apply sorted_NoDup, unique_labels_sorted.
  - apply NoDup_nodup.
  - intros x. unfold observed_classes. rewrite nodup_In. split.
    + apply unique_labels_sound.
    + apply unique_labels_complete.
Qed.

Lemma Qsum_permutation (g : Z -> Q) (l l' : list Z) :
  Permutation l l' -> Qsum (map g l) == Qsum (map g l').
Proof.
  induction 1 as [|x l l' _ IH|x y l|l l' l'' _ IH1 _ IH2]; simpl.
  - reflexivity.
  - rewrite IH. reflexivity.
  - ring.
  - rewrite IH1. exact IH2.
Qed.

Lemma Qsum_pointwise (g h : Z -> Q) (l : list Z) :
  (forall c, g c == h c) -> Qsum (map g l) == Qsum (map h l).
Proof.
  intros H. induction l as [|c l IH]; simpl; [reflexivity|].
  rewrite IH, H. reflexivity.
Qed.

Lemma Qsum_combine_maps (F W : Z -> Q) (l : list Z) :
  Qsum (map (fun aw => fst aw * snd aw) (combine (map F l) (map W l)))
  == Qsum (map (fun c => F c * W c) l).
Proof.
  induction l as [|c l IH]; simpl; [reflexivity|]. rewrite IH. reflexivity.
Qed.

Lemma Qsum_Qnat (f : Z -> nat) (l : list Z) :
  Qsum (map (fun c => Qnat (f c)) l) == Qnat (list_sum (map f l)).
Proof.
  induction l as [|c l IH]; simpl; [reflexivity|].
  rewrite IH, AccuracyFacts.Qnat_add. reflexivity.
Qed.

Lemma indicator_sum (t : Z) (classes : list Z) :
  NoDup classes -> In t classes ->
  list_sum (map (fun c => if Z.eq_dec t c then 1 else 0)%nat classes) = 1%nat.
Proof.
  induction 1 as [|d classes Hd Hnd IH]; [intros []|].
  intros Hin. simpl. destruct (Z.eq_dec t d) as [->|Hne].
  - assert (E : list_sum (map (fun c => if Z.eq_dec d c then 1 else 0)%nat classes)
                = 0%nat).
    { clear - Hd. induction classes as [|e classes IH]; [reflexivity|].
      simpl. destruct (Z.eq_dec d e) as [->|_].
      - contradiction Hd. left. reflexivity.
      - apply IH. intros H. apply Hd. right. exact H. }
    rewrite E. reflexivity.
  - destruct Hin as [->|Hin]; [contradiction Hne; reflexivity|].
    apply IH, Hin.
Qed.

(** The supports of the classes add up to the number of samples. *)
Lemma supports_add_up (y : list Z) (classes : list Z) :
  NoDup classes -> (forall t, In t y -> In t classes) ->
  list_sum (map (fun c => members c y) classes) = length y.
Proof.
  intros Hnd. induction y as [|t y IH]; intros Hall.
  - unfold members. simpl. apply list_sum_map_zero_any.
  - unfold members in *. simpl count_occ.
    rewrite (map_ext _ (fun c => ((if Z.eq_dec t c then 1 else 0)
                                  + count_occ Z.eq_dec y c)%nat)).
    2:{ intros c. destruct (Z.eq_dec t c); reflexivity. }
    rewrite list_sum_map_add_any.
    rewrite (@indicator_sum t classes Hnd (Hall t (or_introl eq_refl))).
    simpl. f_equal. apply IH. intros x Hx. apply Hall. right. exact Hx.
Qed.

End RefinementFacts.

Module ScoreFacts.
Import Sklearn SklearnFacts FbetaFacts PerfectFacts RefinementFacts.

Lemma total_support (y_true y_pred : list Z) :
  Qsum (map (fun c => Qnat (true_sum c y_true)) (unique_labels y_true y_pred))
  == Qnat (length y_true).
Proof.
  rewrite Qsum_Qnat.
  rewrite (map_ext _ (fun c => members c y_true))
    by (intro; apply true_sum_members).
  rewrite supports_add_up; [reflexivity | |].
  - apply sorted_NoDup, unique_labels_sorted.
  - intros t Ht. apply unique_labels_complete, in_or_app. left. exact Ht.
Qed.

Lemma weighted_sum_observed (beta : Q) (y_true y_pred : list Z) :
  Qsum (map (fun aw => fst aw * snd aw)
            (combine (map (fun c => class_fbeta beta c y_true y_pred)
                          (unique_labels y_true y_pred))
                     (map (fun c => Qnat (true_sum c y_true))
                          (unique_labels y_true y_pred))))
  == Qsum (map (fun c => class_score beta c y_true y_pred
                         * Qnat (members c y_true))
               (observed_classes y_true y_pred)).
Proof.
  rewrite (Qsum_combine_maps (fun c => class_fbeta beta c y_true y_pred)
                             (fun c => Qnat (true_sum c y_true))).
  rewrite (Qsum_pointwise
             (fun c => class_fbeta beta c y_true y_pred * Qnat (true_sum c y_true))
             (fun c => class_score beta c y_true y_pred * Qnat (members c y_true))).
  - apply Qsum_permutation, unique_labels_observed.
  - intros c. rewrite class_fbeta_class_score, true_sum_members. reflexivity.
Qed.

(** What the library call returns is the weighted F-beta of the
    specification. *)
Lemma fbeta_score_refines (y_true y_pred : list Z) (beta : Q) :
  length y_true = length y_pred -> 0 <= beta ->
  exists s, fbeta_score y_true y_pred beta = Return s
            /\ s == weighted_fbeta beta y_true y_pred.
Proof.
  intros Hlen Hbeta. unfold fbeta_score.
  rewrite (proj2 (Nat.eqb_eq _ _) Hlen). cbn [negb].
  rewrite (proj2 (Qltb_false beta 0) Hbeta). cbv zeta.
  pose proof (total_support y_true y_pred) as Hw.
  unfold weighted_fbeta, weighted_fbeta_over.
  destruct (Qeq_bool
              (Qsum (map (fun c => Qnat (true_sum c y_true))
                         (unique_labels y_true y_pred))) 0) eqn:E.
  - exists 0. split; [reflexivity|].
    apply Qeq_bool_eq in E. rewrite Hw in E.
    destruct y_true as [|t y_true].
    + simpl length. unfold Qdiv. change (/ Qnat 0) with 0. ring.
    + exfalso. revert E. apply AccuracyFacts.Qnat_nonzero. simpl. lia.
  - eexists. split; [reflexivity|]. unfold average.
    rewrite weighted_sum_observed, Hw. reflexivity.
Qed.

Lemma Qsum_remove (g : Z -> Q) (c : Z) (l : list Z) :
  g c == 0 -> Qsum (map g l) == Qsum (map g (remove Z.eq_dec c l)).
Proof.
  intros H. induction l as [|d l IH]; simpl; [reflexivity|].
  destruct (Z.eq_dec c d) as [<-|_]; simpl; rewrite IH; [rewrite H; ring|].
  reflexivity.
Qed.

Lemma class_score_zero_division (beta : Q) (c : Z) (y_true y_pred : list Z) :
  pred_sum c y_pred = 0%nat \/ true_sum c y_true = 0%nat ->
  class_score beta c y_true y_pred = 0.
Proof.
  rewrite pred_sum_members, true_sum_members. unfold class_score. cbv zeta.
  intros [->| ->]; simpl; [reflexivity|].
  rewrite orb_true_r. reflexivity.
Qed.

(** A class whose division is by zero adds nothing to the score of its
    column. *)
Lemma weighted_fbeta_without (beta : Q) (c : Z) (y_true y_pred : list Z) :
  pred_sum c y_pred = 0%nat \/ true_sum c y_true = 0%nat ->
  weighted_fbeta beta y_true y_pred
  == weighted_fbeta_over (remove Z.eq_dec c (observed_classes y_true y_pred))
                         beta y_true y_pred.
Proof.
  intros H. unfold weighted_fbeta, weighted_fbeta_over.
  rewrite (Qsum_remove
             (fun d => class_score beta d y_true y_pred * Qnat (members d y_true))
             c (observed_classes y_true y_pred)).
  - reflexivity.
  - cbv beta. rewrite (class_score_zero_division beta c y_true y_pred H). ring.
Qed.

Lemma fbeta_formula_strict (b2 p r : Q) :
  0 < b2 -> 0 <= p <= 1 -> 0 <= r -> r < 1 ->
  (1 + b2) * p * r / (if Qeq_bool (b2 * p + r) 0 then 1 else b2 * p + r) < 1.
Proof.
  intros Hb [Hp0 Hp1] Hr0 Hr1.
  assert (Hbp : 0 <= b2 * p) by (apply Qmult_le_0_compat; Lqa.lra).
  assert (Hpr : p * r <= r).
  { setoid_replace r with (1 * r) at 2 by ring.
    apply Qmult_le_compat_r; assumption. }
  destruct (Qeq_bool (b2 * p + r) 0) eqn:E.
  - apply Qeq_bool_eq in E.
    assert (R0 : r == 0) by Lqa.lra.
    rewrite R0. apply Qlt_shift_div_r; [reflexivity|]. Lqa.lra.
  - apply Qeq_bool_neq in E.
    assert (Hpos : 0 < b2 * p + r).
    { destruct (Qlt_le_dec 0 (b2 * p + r)) as [H|H]; [exact H|].
      exfalso. apply E. Lqa.lra. }
    apply Qlt_shift_div_r; [exact Hpos|]. rewrite Qmult_1_l.
    setoid_replace ((1 + b2) * p * r) with (p * r + b2 * p * r) by ring.
    destruct (Qlt_le_dec 0 p) as [Hp|Hp].
    + assert (Hs : b2 * p * r < b2 * p).
      { setoid_replace (b2 * p) with (b2 * p * 1) at 2 by ring.
        rewrite (Qmult_comm (b2 * p) r), (Qmult_comm (b2 * p) 1).
        apply Qmult_lt_compat_r; [|exact Hr1].
        setoid_replace 0 with (b2 * 0) by ring.
        rewrite (Qmult_comm b2 0), (Qmult_comm b2 p).
        apply Qmult_lt_compat_r; assumption. }
      Lqa.lra.
    + assert (P0 : p == 0) by Lqa.lra.
      rewrite P0 in *.
      setoid_replace (0 * r + b2 * 0 * r) with 0 by ring.
      setoid_replace (b2 * 0 + r) with r by ring.
      setoid_replace (b2 * 0 + r) with r in Hpos by ring. exact Hpos.
Qed.

Lemma weighted_sum_strict (F W : Z -> Q) (classes : list Z) (d : Z) :
  (forall c, 0 <= F c <= 1) -> (forall c, 0 <= W c) ->
  In d classes -> F d < 1 -> 0 < W d ->
  Qsum (map (fun aw => fst aw * snd aw)
            (combine (map F classes) (map W classes)))
  < Qsum (map W classes).
Proof.
  intros HF HW Hin Hd Hwd.
  induction classes as [|c classes IH]; [contradiction|].
  simpl. destruct (HF c) as [F0 F1]. pose proof (HW c) as Wc.
  assert (H1 : F c * W c <= W c).
  { setoid_replace (W c) with (1 * W c) at 2 by ring.
    apply Qmult_le_compat_r; assumption. }
  destruct Hin as [->|Hin].
  - destruct (weighted_sum_bounds F W classes HF HW) as [_ B].
    assert (Hs : F d * W d < W d).
    { setoid_replace (W d) with (1 * W d) at 2 by ring.
      apply Qmult_lt_compat_r; assumption. }
    Lqa.lra.
  - specialize (IH Hin). Lqa.lra.
Qed.

Lemma in_combine_partner (y_true y_pred : list Z) (c : Z) :
  length y_true = length y_pred -> In c y_pred ->
  exists d, In (d, c) (combine y_true y_pred).
Proof.
  revert y_pred. induction y_true as [|t y_true IH]; intros [|p y_pred] Hlen Hin;
    simpl in *; try discriminate; try contradiction.
  destruct Hin as [->|Hin].
  - exists t. left. reflexivity.
  - destruct (IH y_pred ltac:(lia) Hin) as (d & Hd). exists d. right. exact Hd.
Qed.

Lemma tp_below_true (y_true y_pred : list Z) (d c : Z) :
  In (d, c) (combine y_true y_pred) -> d <> c ->
  (tp_sum d y_true y_pred < true_sum d y_true)%nat.
Proof.
  revert y_pred. induction y_true as [|t y_true IH]; intros [|p y_pred] Hin Hne;
    simpl in Hin; try contradiction.
  pose proof (tp_le_true d y_true y_pred) as Hle.
  unfold tp_sum, true_sum in *. simpl.
  destruct Hin as [E|Hin].
  - injection E as -> ->. rewrite Z.eqb_refl.
    destruct (Z.eqb_spec c d) as [->|_]; [contradiction Hne; reflexivity|].
    simpl. lia.
  - specialize (IH y_pred Hin Hne).
    destruct (t =? d)%Z, (p =? d)%Z; simpl; lia.
Qed.

Lemma prf_divide_below_one (n d : nat) : (n < d)%nat -> prf_divide n d < 1.
Proof.
  intros H. unfold prf_divide.
  destruct (Nat.eqb_spec d 0) as [->|_]; [lia|].
  apply Qlt_shift_div_r; [apply Qnat_pos; lia|].
  rewrite Qmult_1_l. unfold Qnat. rewrite <- Zlt_Qlt. lia.
Qed.

Lemma members_positive (c : Z) (y : list Z) : (0 < true_sum c y)%nat -> In c y.
Proof.
  rewrite true_sum_members. unfold members. intros H.
  apply (count_occ_In Z.eq_dec). lia.
Qed.

(** With a positive beta, a column in which an observed class has no
    predicted or no true member scores strictly below 1. *)
Lemma fbeta_score_strict (y_true y_pred : list Z) (beta : Q) (c : Z) (s : Q) :
  length y_true = length y_pred -> 0 < beta ->
  In c (y_true ++ y_pred) ->
  pred_sum c y_pred = 0%nat \/ true_sum c y_true = 0%nat ->
  fbeta_score y_true y_pred beta = Return s -> s < 1.
Proof.
  intros Hlen Hbeta Hobs Hzero. unfold fbeta_score.
  rewrite (proj2 (Nat.eqb_eq _ _) Hlen). cbn [negb].
  rewrite (proj2 (Qltb_false beta 0) (Qlt_le_weak _ _ Hbeta)). cbv zeta.
  set (classes := unique_labels y_true y_pred).
  set (W := fun c : Z => Qnat (true_sum c y_true)).
  set (F := fun c : Z => class_fbeta beta c y_true y_pred).
  assert (HW : forall c, 0 <= W c) by (intro; apply Qnat_nonneg).
  assert (HF : forall c, 0 <= F c <= 1) by (intro; apply class_fbeta_bounds).
  assert (Hd : exists d, In d classes /\ F d < 1 /\ 0 < W d).
  { destruct (Nat.eq_dec (true_sum c y_true) 0) as [Ht|Ht].
    - assert (Hp : In c y_pred).
      { apply in_app_or in Hobs. destruct Hobs as [H|H]; [|exact H].
        apply true_sum_member in H. lia. }
      destruct (@in_combine_partner y_true y_pred c Hlen Hp) as (d & Hdc).
      assert (Hdt : In d y_true) by (apply (in_combine_l _ _ _ _ Hdc)).
      assert (Hne : d <> c).
      { intros ->. apply true_sum_member in Hdt. lia. }
      exists d. split; [|split].
      + apply unique_labels_complete, in_or_app. left. exact Hdt.
      + unfold F, class_fbeta. cbv zeta. apply fbeta_formula_strict.
        * apply Qmult_lt_0_compat; assumption.
        * apply precision_bounds.
        * apply recall_bounds.
        * apply prf_divide_below_one, (@tp_below_true y_true y_pred d c Hdc Hne).
      + apply Qnat_pos, true_sum_member, Hdt.
    - exists c. split; [|split].
      + apply unique_labels_complete, in_or_app. left.
        apply members_positive. lia.
      + destruct Hzero as [Hz|Hz]; [|contradiction].
        unfold F. rewrite class_fbeta_class_score.
        rewrite (class_score_zero_division beta c y_true y_pred (or_introl Hz)).
        reflexivity.
      + apply Qnat_pos. lia. }
  destruct Hd as (d & Hin & Hfd & Hwd).
  pose proof (@weighted_sum_strict F W classes d HF HW Hin Hfd Hwd) as Hlt.
  destruct (weighted_sum_bounds F W classes HF HW) as [B0 _].
  destruct (Qeq_bool (Qsum (map W classes)) 0) eqn:E.
  - intros H. injection H as <-. reflexivity.
  - intros H. injection H as <-. unfold average.
    apply Qlt_shift_div_r; [Lqa.lra|]. rewrite Qmult_1_l. exact Hlt.
Qed.

End ScoreFacts.

(** * The scorer and the evaluator against their descriptions *)

Lemma Forall2_impl_in {A B : Type} (P Q : A -> B -> Prop) (xs : list A) (ys : list B) :
  (forall x y, In x xs -> P x y -> Q x y) -> Forall2 P xs ys -> Forall2 Q xs ys.
Proof.
  intros H H2. induction H2 as [|x y xs ys Hxy _ IH]; constructor.
  - apply H; [left; reflexivity | exact Hxy].
  - apply IH. intros x' y' Hin. apply H. right. exact Hin.
Qed.

Lemma Forall2_seq_nth_error {B : Type} (P : nat -> B -> Prop) (n a : nat)
    (ys : list B) (i : nat) :
  Forall2 P (seq a n) ys -> (i < n)%nat ->
  exists y, nth_error ys i = Some y /\ P (a + i)%nat y.
Proof.
  revert a ys i. induction n as [|n IH]; intros a ys i H2 Hi; [lia|].
  simpl in H2. inversion H2 as [|x y xs ys' Hxy Hrest]; subst.
  destruct i as [|i].
  - exists y. split; [reflexivity|]. rewrite Nat.add_0_r. exact Hxy.
  - destruct (IH (S a) ys' i Hrest ltac:(lia)) as (y' & Hn & Hp).
    exists y'. split; [exact Hn|].
    replace (a + S i)%nat with (S a + i)%nat by lia. exact Hp.
Qed.

Section ColumnScores.

Variables y_true y_pred : ndarray.
Variable beta : Q.
Hypothesis true_shaped : well_shaped y_true = true.
Hypothesis pred_shaped : well_shaped y_pred = true.
Hypothesis shapes : same_shape y_true y_pred.
Hypothesis beta_nonneg : 0 <= beta.

Lemma columns_same_length (k : nat) :
  length (column_cells y_true k) = length (column_cells y_pred k).
Proof.
  rewrite !column_cells_length.
  rewrite (well_shaped_rows y_true true_shaped).
  rewrite (well_shaped_rows y_pred pred_shaped). apply shapes.
Qed.

Lemma column_score_is_fbeta (k : nat) :
  (k < n_cols y_true)%nat ->
  column_score y_true y_pred beta k
  = Sklearn.fbeta_score (column_cells y_true k) (column_cells y_pred k) beta.
Proof.
  intros Hk. unfold column_score. destruct shapes as [_ Hcols].
  rewrite (column_in_range y_true Hk).
  rewrite (column_in_range y_pred (k := k)) by lia. reflexivity.
Qed.

(** The score of column [k] is the weighted F-beta of column [k] of the
    truth against column [k] of the prediction. *)
Lemma column_score_weighted (k : nat) (s : Q) :
  (k < n_cols y_true)%nat ->
  column_score y_true y_pred beta k = Return s ->
  s == weighted_fbeta beta (column_cells y_true k) (column_cells y_pred k).
Proof.
  intros Hk Hs. rewrite (column_score_is_fbeta Hk) in Hs.
  destruct (@ScoreFacts.fbeta_score_refines (column_cells y_true k)
              (column_cells y_pred k) beta (columns_same_length k) beta_nonneg)
    as (s' & Hs' & Heq).
  rewrite Hs in Hs'. injection Hs' as <-. exact Heq.
Qed.

End ColumnScores.

(** C1. On two well-shaped label matrices of one shape the scorer computes
    one score per label column, the support-weighted F-beta of that column
    of the truth against that column of the prediction, removes the scores
    equal to 1 and returns the geometric mean of the remaining ones (the
    non-negative root, of order their number, of their product); the scores
    [0.8, 1.0, 0.6] aggregate to sqrt 0.48, which rounds to 0.693. *)
Theorem multioutput_fscore_filtered_gmean
    (y_true y_pred : labels) (beta : Q) :
  well_shaped (as_values y_true) = true ->
  well_shaped (as_values y_pred) = true ->
  same_shape (as_values y_true) (as_values y_pred) ->
  0 <= beta ->
  (exists score_list,
     Forall2 (fun k s => column_score (as_values y_true) (as_values y_pred) beta k
                         = Return s)
             (seq 0 (n_cols (as_values y_true))) score_list
     /\ Forall2 (fun k s =>
                   s == weighted_fbeta beta (column_cells (as_values y_true) k)
                                            (column_cells (as_values y_pred) k))
                (seq 0 (n_cols (as_values y_true))) score_list
     /\ multioutput_fscore y_true y_pred beta
        = Return (Scipy.gmean (drop_perfect score_list))
     /\ (drop_perfect score_list <> [] ->
         exists r, Scipy.gmean (drop_perfect score_list) = Num r
                   /\ (0 <= r)%R
                   /\ (r ^ length (drop_perfect score_list)
                       = Rprod (map Q2R (drop_perfect score_list)))%R))
  /\ aggregate [8 # 10; 1; 6 # 10] = Num (sqrt 0.48)
  /\ (0.6925 < sqrt 0.48 < 0.6935)%R.
Proof.
  intros Ht Hp Hs Hb. split; [|split].
  - destruct (score_list_returns Ht Hp Hs Hb) as (sl & Hfor & H2 & Hrange).
    exists sl. split; [exact H2|]. split; [|split].
    + eapply Forall2_impl_in; [|exact H2]. intros k s Hk Hks.
      apply in_seq in Hk.
      apply (@column_score_weighted (as_values y_true) (as_values y_pred) beta
               Ht Hp Hs Hb k s); [lia | exact Hks].
    + rewrite (multioutput_fscore_unfold _ _ _ Hfor). unfold aggregate. cbv zeta.
      rewrite (filter_below_one Hrange). reflexivity.
    + intros Hne. apply GmeanFacts.gmean_is_root; [exact Hne|].
      pose proof (drop_perfect_range Hrange) as Hr.
      eapply Forall_impl; [|exact Hr]. intros s [H _]. exact H.
  - apply aggregate_worked_example.
  - apply sqrt_048_rounds.
Qed.

Lemma multioutput_fscore_filtered_gmean_witness :
  exists score_list,
    Forall2 (fun k s => column_score worked_y_true worked_y_pred 1 k = Return s)
            (seq 0 3) score_list
    /\ Forall2 (fun k s =>
                  s == weighted_fbeta 1 (column_cells worked_y_true k)
                                        (column_cells worked_y_pred k))
               (seq 0 3) score_list
    /\ multioutput_fscore (Array worked_y_true) (Array worked_y_pred) 1
       = Return (Scipy.gmean (drop_perfect score_list)).
Proof.
  destruct (@multioutput_fscore_filtered_gmean
              (Array worked_y_true) (Array worked_y_pred) 1)
    as ((sl & Hcols & Hweighted & Hres & _) & _);
    [reflexivity | reflexivity | split; reflexivity | discriminate |].
  exists sl. split; [exact Hcols|]. split; [exact Hweighted | exact Hres].
Defined.

(** The weighted F-beta of the specification on the three columns of the
    worked example. *)
Example worked_example_weighted :
  weighted_fbeta 1 (column_cells worked_y_true 0) (column_cells worked_y_pred 0)
    == 8 # 10
  /\ weighted_fbeta 1 (column_cells worked_y_true 1) (column_cells worked_y_pred 1)
     == 1
  /\ weighted_fbeta 1 (column_cells worked_y_true 2) (column_cells worked_y_pred 2)
     == 6 # 10.
Proof.
  repeat split; vm_compute; reflexivity.
Qed.



(** C7, as the code has it.  On a test partition whose predictions have the
    shape of the true labels, [evaluate_model] prints and builds no bundle.
    With no more category names than label columns it prints a separator
    and a report for each category, then the overall accuracy and the
    aggregate score, and returns no value; with more names than columns it
    prints the reports of the columns there are and one more separator, and
    raises IndexError. *)
Theorem evaluate_model_prints_and_returns_nothing
    (world : Collaborators) (model : estimator) (X_test : list string)
    (y_test : DataFrame) (category_names : list string) (y_pred : ndarray)
    (tr : list event) :
  estimator_predict model X_test = Return y_pred ->
  well_shaped (values y_test) = true ->
  well_shaped y_pred = true ->
  same_shape (values y_test) y_pred ->
  ((length category_names <= n_cols (values y_test))%nat ->
   exists multioutput_f1 accuracy,
     multioutput_fscore (Frame y_test) (Array y_pred) 1 = Return multioutput_f1
     /\ overall_accuracy y_pred y_test = Return accuracy
     /\ evaluate_model model X_test y_test category_names tr
        = (Return tt,
           tr ++ [Predict]
              ++ flat_map (category_output y_pred y_test category_names)
                          (seq 0 (length category_names))
              ++ [Stdout [Percent2f ("Average overall accuracy:     {0:.2f}%" ++ Str.nl)
                                    (times100 (npfloat_of accuracy))];
                  Stdout [Percent2f ("F1 score (custom definition): {0:.2f}%" ++ Str.nl)
                                    (times100 multioutput_f1)]]))
  /\ ((n_cols (values y_test) < length category_names)%nat ->
      evaluate_model model X_test y_test category_names tr
      = (Raise IndexError,
         tr ++ [Predict]
            ++ flat_map (category_output y_pred y_test category_names)
                        (seq 0 (n_cols (values y_test)))
            ++ [Stdout [Text separator]])).
Proof.
  intros Hpred Ht Hp Hs. split.
  - intros Hn.
    apply (@evaluate_model_trace world model X_test y_test category_names y_pred
             Hpred Ht Hp Hs Hn tr).
  - intros Hn.
    apply (@evaluate_model_surplus_names_trace world model X_test y_test
             category_names y_pred tr Hpred Hs Hn).
Qed.

Lemma evaluate_model_prints_and_returns_nothing_witness :
  exists multioutput_f1 accuracy,
    evaluate_model (world := toy_world) tt ["water"]%string toy_y_test
                   (columns toy_y_test) []
    = (Return tt,
       [] ++ [Predict]
          ++ flat_map (category_output (world := toy_world) toy_y_pred toy_y_test
                                       (columns toy_y_test))
                      (seq 0 (length (columns toy_y_test)))
          ++ [Stdout [Percent2f ("Average overall accuracy:     {0:.2f}%" ++ Str.nl)
                                (times100 (npfloat_of accuracy))];
              Stdout [Percent2f ("F1 score (custom definition): {0:.2f}%" ++ Str.nl)
                                (times100 multioutput_f1)]]).
Proof.
  destruct toy_evaluation_hypotheses as (H1 & H2 & H3 & H4 & H5).
  destruct (@evaluate_model_prints_and_returns_nothing toy_world tt
              ["water"]%string toy_y_test (columns toy_y_test) toy_y_pred []
              H1 H2 H3 H4) as (Hfits & _).
  destruct (Hfits H5) as (f1 & acc & _ & _ & H).
  exists f1, acc. exact H.
Defined.
